(** * Impulse configuration tool: class-model rendering and configuration deltas

    A shallow embedding of [main.py]:
    - Python dictionaries (insertion ordered, unique keys) as association
      lists with the three operations the program uses;
    - [ConfigDeltaProcessor.generate] / [ConfigDeltaProcessor.apply];
    - [XMLProcessor]: [_parse_xml_classes], [build_xml_structure],
      [generate_config_xml], [generate_meta_json].

    The XML text is represented after [ET.fromstring]: the list of child
    elements of the document root, with every [elem.get(..)] an [option]. *)

From Stdlib Require Import Ascii.
From stdpp Require Import base option list strings gmap.

#[local] Set Warnings "-clear-no-such-hyp".

(** ** Python dictionaries

    A [dict] keeps its items in insertion order.  [d[k] = v] overwrites the
    value in place when [k] is present and appends a new item otherwise;
    [del d[k]] removes the item; [k in d] and [d[k]] look the key up.
    Keys are unique ([dict_wf]), so removing every item of a key removes
    the one there is. *)
Section dict.
Context {K V : Type} `{EqDecision K}.

Definition dict : Type := list (K * V).

Fixpoint dict_get (k : K) (d : dict) : option V :=
  match d with
  | [] => None
  | (k', v) :: d' => if decide (k = k') then Some v else dict_get k d'
  end.

Definition dict_in (k : K) (d : dict) : bool :=
  match dict_get k d with Some _ => true | None => false end.

Fixpoint dict_set (k : K) (v : V) (d : dict) : dict :=
  match d with
  | [] => [(k, v)]
  | (k', v') :: d' =>
      if decide (k = k') then (k', v) :: d' else (k', v') :: dict_set k v d'
  end.

Fixpoint dict_del (k : K) (d : dict) : dict :=
  match d with
  | [] => []
  | (k', v') :: d' =>
      if decide (k = k') then dict_del k d' else (k', v') :: dict_del k d'
  end.

Definition dict_keys (d : dict) : list K := d.*1.

(** The representation invariant of a Python dictionary: keys are unique. *)
Definition dict_wf (d : dict) : Prop := NoDup (dict_keys d).

End dict.

Arguments dict : clear implicits.

(** ** JSON scalars

    The values [json.load] yields for a flat configuration, floating point
    left out.  [json_eq] is Python's [==] on them: [bool] is a subclass of
    [int], so [True == 1] and [False == 0]. *)
Inductive json : Type :=
| JNull
| JBool (b : bool)
| JInt (n : Z)
| JStr (s : string).

Definition json_eq (a b : json) : bool :=
  match a, b with
  | JNull, JNull => true
  | JBool x, JBool y => bool_decide (x = y)
  | JInt x, JInt y => bool_decide (x = y)
  | JBool x, JInt y | JInt y, JBool x => bool_decide (Z.b2z x = y)
  | JStr x, JStr y => bool_decide (x = y)
  | _, _ => false
  end.

(** ** ConfigDeltaProcessor

    Values are arbitrary Python objects compared with [==] / [!=]; the
    development is parametric in the value type and its [==]. *)
Record addition_entry (V : Type) : Type :=
  Addition { a_key : string; a_value : V }.
Record update_entry (V : Type) : Type :=
  Update { u_key : string; u_from : V; u_to : V }.
Record delta (V : Type) : Type :=
  Delta { additions : list (addition_entry V);
          deletions : list string;
          updates : list (update_entry V) }.

Arguments Addition {V} _ _.
Arguments a_key {V} _.
Arguments a_value {V} _.
Arguments Update {V} _ _ _.
Arguments u_key {V} _.
Arguments u_from {V} _.
Arguments u_to {V} _.
Arguments Delta {V} _ _ _.
Arguments additions {V} _.
Arguments deletions {V} _.
Arguments updates {V} _.

Module ConfigDeltaProcessor.
Section delta.
Context {V : Type} (py_eq : V → V → bool).

(** [a != b] on JSON values is the negation of [a == b]. *)
Definition py_ne (a b : V) : bool := negb (py_eq a b).

(** [dict.__eq__] on dictionaries whose values are equal to themselves:
    same number of items, and every key of the left operand is a key of the
    right one with an equal value.  CPython compares two values by identity
    before it calls [==]; that shortcut is not part of this definition, and
    it only matters for a value that is not [==] to itself, a float NaN. *)
Definition dict_eq (a b : dict string V) : bool :=
  bool_decide (length a = length b) &&
  forallb (λ '(k, v), match dict_get k b with
                      | Some v' => py_eq v v'
                      | None => false
                      end) a.

Definition generate (config_json patched_config_json : dict string V) : delta V :=
  let additions :=
    fold_left (λ acc '(key, value),
        if negb (dict_in key config_json)
        then acc ++ [Addition key value] else acc)
      patched_config_json [] in
  let deletions :=
    fold_left (λ acc key,
        if negb (dict_in key patched_config_json)
        then acc ++ [key] else acc)
      (dict_keys config_json) [] in
  let updates :=
    fold_left (λ acc key,
        if dict_in key patched_config_json then
          (* both subscripts are guarded: [key] iterates over [config_json]
             and was just found in [patched_config_json] *)
          match dict_get key config_json, dict_get key patched_config_json with
          | Some from, Some to =>
              if py_ne from to then acc ++ [Update key from to] else acc
          | _, _ => acc
          end
        else acc)
      (dict_keys config_json) [] in
  Delta additions deletions updates.

Definition apply_deletion (result : dict string V) (key : string) : dict string V :=
  if dict_in key result then dict_del key result else result.

Definition apply_update (result : dict string V) (update : update_entry V)
  : dict string V :=
  if dict_in (u_key update) result
  then dict_set (u_key update) (u_to update) result else result.

Definition apply_addition (result : dict string V) (addition : addition_entry V)
  : dict string V :=
  dict_set (a_key addition) (a_value addition) result.

(** The value [apply] returns, as a function of the contents of
    [config_json]; [apply_heap] below is the same code over the object
    store, with [config_json.copy()] an allocation. *)
Definition apply (config_json : dict string V) (d : delta V) : dict string V :=
  let result := config_json in
  let result := fold_left apply_deletion (deletions d) result in
  let result := fold_left apply_update (updates d) result in
  fold_left apply_addition (additions d) result.

(** *** The object store

    Dictionaries are heap objects named by references; [copy()] allocates,
    [del] and item assignment mutate the object a reference names. *)
Abbreviation ref := positive (only parsing).
Abbreviation heap := (gmap positive (dict string V)) (only parsing).

Definition heap_copy (h : heap) (src : ref) : option (heap * ref) :=
  d ← h !! src;
  let r := fresh (dom h) in
  Some (<[r := d]> h, r).

Definition heap_contains (h : heap) (r : ref) (key : string) : bool :=
  match h !! r with Some d => dict_in key d | None => false end.

Definition heap_delitem (h : heap) (r : ref) (key : string) : heap :=
  alter (dict_del key) r h.

Definition heap_setitem (h : heap) (r : ref) (key : string) (v : V) : heap :=
  alter (dict_set key v) r h.

Definition apply_heap (h : heap) (config_json : ref) (d : delta V)
  : option (heap * ref) :=
  '(h, result) ← heap_copy h config_json;
  let h := fold_left (λ h key,
               if heap_contains h result key
               then heap_delitem h result key else h)
             (deletions d) h in
  let h := fold_left (λ h update,
               if heap_contains h result (u_key update)
               then heap_setitem h result (u_key update) (u_to update) else h)
             (updates d) h in
  let h := fold_left (λ h addition,
               heap_setitem h result (a_key addition) (a_value addition))
             (additions d) h in
  Some (h, result).

(** The last [to] among the updates of [key], and the last [value] among
    the additions of [key]: the one a sequence of assignments leaves. *)
Definition last_update (key : string) (us : list (update_entry V)) : option V :=
  u_to <$> last (filter (λ u, u_key u = key) us).

Definition last_addition (key : string) (al : list (addition_entry V)) : option V :=
  a_value <$> last (filter (λ a, a_key a = key) al).

End delta.
End ConfigDeltaProcessor.

(** The update entry [generate] emits for an item of [base], if any. *)
Definition update_of {V : Type} (py_eq : V → V → bool)
    (patched : dict string V) (kv : string * V)
  : option (update_entry V) :=
  match dict_get kv.1 patched with
  | Some to => if py_eq kv.2 to then None else Some (Update kv.1 kv.2 to)
  | None => None
  end.

(** The two snapshots of the scenario of the specification, and a store
    holding the first. *)
Definition example_base : dict string json :=
  [("a", JInt 1); ("b", JInt 2)].
Definition example_patched : dict string json :=
  [("b", JInt 3); ("c", JInt 4)].

Definition example_heap : gmap positive (dict string json) :=
  {[ 1%positive := example_base ]}.

(** ** Results of operations that may raise *)
Inductive error : Type :=
| KeyError (key : option string)  (* [self.classes[current_class]] *)
| NoRootFound                     (* the [ValueError] of [generate_config_xml] *)
| TypeError                       (* ['..' in None] *)
| UnpackError                     (* [min_s, max_s = ...] with other than two parts *)
| RecursionError                  (* recursion depth exhausted *)
| SerializationError.             (* the [ValueError] of [ET.tostring] on a tag
                                     that opens a namespace and never closes it *)

Inductive result (A : Type) : Type :=
| Ok (a : A)
| Err (e : error).
Arguments Ok {A} _.
Arguments Err {A} _.

#[global] Instance result_ret : MRet result := @Ok.
#[global] Instance result_bind : MBind result := λ A B f r,
  match r with
  | Ok a => f a
  | Err e => Err e
  end.

(** ** The document after [ET.fromstring]

    [elem.get(a)] is [None] when the attribute is missing.  A [Class]
    element is given with the result of its [findall('Attribute')]. *)
Record attribute_elem : Type :=
  AttributeElem { attr_name : option string; attr_type : option string }.

Record class_elem : Type :=
  ClassElem { cls_name : option string;
              cls_isRoot : option string;
              cls_documentation : option string;
              cls_attributes : list attribute_elem }.

Record aggregation_elem : Type :=
  AggregationElem { agg_source : option string;
                    agg_target : option string;
                    agg_sourceMultiplicity : option string }.

Inductive element : Type :=
| EClass (c : class_elem)
| EAggregation (a : aggregation_elem)
| EOther (tag : string).

Definition document : Type := list element.

(** [root.findall('Class')] and [root.findall('Aggregation')]: the direct
    children with that tag, in document order. *)
Definition findall_Class (root : document) : list class_elem :=
  omap (λ e, match e with EClass c => Some c | _ => None end) root.

Definition findall_Aggregation (root : document) : list aggregation_elem :=
  omap (λ e, match e with EAggregation a => Some a | _ => None end) root.

(** ** The class table *)
Record child_ref : Type :=
  ChildRef { child_name : option string; child_multiplicity : option string }.

Record class_info : Type :=
  ClassInfo { isRoot : bool;
              documentation : string;
              attributes : list attribute_elem;
              children : list child_ref }.

Definition class_table : Type := dict (option string) class_info.

Definition append_child (info : class_info) (c : child_ref) : class_info :=
  ClassInfo (isRoot info) (documentation info) (attributes info)
            (children info ++ [c]).

Definition add_class (classes : class_table) (elem : class_elem) : class_table :=
  let class_name := cls_name elem in
  dict_set class_name
    (ClassInfo (bool_decide (cls_isRoot elem = Some "true"))
               (default "" (cls_documentation elem))
               (map (λ a, AttributeElem (attr_name a) (attr_type a))
                    (cls_attributes elem))
               [])
    classes.

Definition add_aggregation (classes : class_table) (agg : aggregation_elem)
  : class_table :=
  let source := agg_source agg in
  let target := agg_target agg in
  let source_mult := agg_sourceMultiplicity agg in
  match dict_get target classes with
  | Some info =>
      dict_set target (append_child info (ChildRef source source_mult)) classes
  | None => classes
  end.

Definition _parse_xml_classes (root : document) : class_table :=
  let classes := fold_left add_class (findall_Class root) [] in
  fold_left add_aggregation (findall_Aggregation root) classes.

(** The child reference an aggregation contributes, and a class with
    several references appended. *)
Definition child_of (a : aggregation_elem) : child_ref :=
  ChildRef (agg_source a) (agg_sourceMultiplicity a).

Definition add_children (info : class_info) (l : list child_ref) : class_info :=
  ClassInfo (isRoot info) (documentation info) (attributes info)
            (children info ++ l).

(** ** XMLProcessor *)
Record XMLProcessor : Type :=
  { xml_content : document; classes : class_table }.

Definition XMLProcessor_init (xml_content : document) : XMLProcessor :=
  {| xml_content := xml_content; classes := _parse_xml_classes xml_content |}.

(** [ET.Element]: tag, text and sub-elements. *)
#[warnings="-register-all"] Inductive xml_element : Type :=
| Element (tag : option string) (text : option string) (subs : list xml_element).

Definition tag (e : xml_element) : option string :=
  match e with Element t _ _ => t end.
Definition text (e : xml_element) : option string :=
  match e with Element _ t _ => t end.
Definition subs (e : xml_element) : list xml_element :=
  match e with Element _ _ s => s end.

Definition append (e sub : xml_element) : xml_element :=
  match e with Element t x s => Element t x (s ++ [sub]) end.

Definition attr_element (attr : attribute_elem) : xml_element :=
  Element (attr_name attr) (attr_type attr) [].

(** [fuel] is the remaining recursion depth: Python raises
    [RecursionError] when it is exhausted. *)
Fixpoint build_xml_structure (fuel : nat) (classes : class_table)
    (current_class : option string) : result xml_element :=
  match fuel with
  | 0 => Err RecursionError
  | S fuel =>
      match dict_get current_class classes with
      | None => Err (KeyError current_class)
      | Some class_info =>
          let element := Element current_class None [] in
          let element :=
            fold_left (λ element attr, append element (attr_element attr))
              (attributes class_info) element in
          fold_left (λ acc child,
              element ← acc;
              child_element ← build_xml_structure fuel classes (child_name child);
              Ok (append element child_element))
            (children class_info) (Ok element)
      end
  end.

(** The first class flagged [isRoot] in iteration order, [None] when the
    loop ends without a [break]. *)
Definition find_root_class (classes : class_table) : option string :=
  match find (λ item, bool_decide (isRoot item.2 = true)) classes with
  | Some (class_name, _) => class_name
  | None => None
  end.

(** [not root_class]: [None] and the empty string are falsy. *)
Definition falsy (s : option string) : bool :=
  match s with
  | None => true
  | Some s => bool_decide (s = "")
  end.

(** ** Serialisation

    [ET.tostring] first resolves the tag of every element of the tree as a
    qualified name: a tag that starts with ["{"] is cut at its last ["}"]
    ([qname[1:].rsplit("}", 1)]), and the unpacking raises [ValueError]
    when there is none.  An element without tag is written without
    markup, the text is only escaped, and [ET.indent] changes white space
    only.  The text written is not embedded: a serialised tree is
    represented by the tree. *)
Fixpoint str_has_char (c : ascii) (s : string) : bool :=
  match s with
  | EmptyString => false
  | String c' rest => Ascii.eqb c' c || str_has_char c rest
  end.

Definition qname_ok (tag : option string) : bool :=
  match tag with
  | Some (String c rest) =>
      if Ascii.eqb c "{" then str_has_char "}" rest else true
  | _ => true
  end.

Fixpoint serializable (e : xml_element) : bool :=
  match e with
  | Element tag _ subs => qname_ok tag && forallb serializable subs
  end.

Definition tostring (root_element : xml_element) : result xml_element :=
  if serializable root_element then Ok root_element
  else Err SerializationError.

(** The result stands for the string [ET.tostring] returns for the
    element, after [ET.indent]. *)
Definition generate_config_xml (fuel : nat) (self : XMLProcessor)
  : result xml_element :=
  let root_class := find_root_class (classes self) in
  if falsy root_class then Err NoRootFound
  else
    root_element ← build_xml_structure fuel (classes self) root_class;
    tostring root_element.

(** The body of the loop over [class_info['children']]. *)
Definition child_step (fuel : nat) (classes : class_table)
    (acc : result xml_element) (child : child_ref) : result xml_element :=
  element ← acc;
  child_element ← build_xml_structure fuel classes (child_name child);
  Ok (append element child_element).

(** ** The containment graph

    [reachable classes c c']: [c'] is met when following child references
    from [c]. *)
Inductive reachable (classes : class_table)
  : option string → option string → Prop :=
| reach_refl c : reachable classes c c
| reach_step c info child c' :
    dict_get c classes = Some info →
    child ∈ children info →
    reachable classes (child_name child) c' →
    reachable classes c c'.


(** Classes flagged [isRoot]: one of them, the only one, none. *)
Definition is_root (classes : class_table) (c : option string) : Prop :=
  ∃ info, dict_get c classes = Some info ∧ isRoot info = true.


Definition no_root (classes : class_table) : Prop :=
  ∀ c, ¬ is_root classes c.

(** Every child reference met from [c] on names a declared class. *)
Definition resolved_from (classes : class_table) (c : option string) : Prop :=
  ∀ c' info child,
    reachable classes c c' → dict_get c' classes = Some info →
    child ∈ children info → is_Some (dict_get (child_name child) classes).


(** ** Multiplicity strings

    [str_contains_dotdot s] is ['..' in s]; [str_split_dotdot s] is
    [s.split('..')]: the pieces between the non-overlapping occurrences of
    the separator, scanning from the left. *)
Definition is_dot (c : ascii) : bool := Ascii.eqb c ".".

Fixpoint str_contains_dotdot (s : string) : bool :=
  match s with
  | EmptyString => false
  | String c rest =>
      match rest with
      | String c' _ => (is_dot c && is_dot c') || str_contains_dotdot rest
      | EmptyString => false
      end
  end.

Fixpoint str_split_dotdot (s : string) : list string :=
  match s with
  | EmptyString => [""]
  | String c rest =>
      let keep :=
        match str_split_dotdot rest with
        | piece :: pieces => String c piece :: pieces
        | [] => [String c ""]
        end in
      match rest with
      | String c' rest' =>
          if is_dot c && is_dot c' then "" :: str_split_dotdot rest' else keep
      | EmptyString => keep
      end
  end.

(** [sep.join(pieces)] for [sep = '..']. *)
Fixpoint str_join_dotdot (pieces : list string) : string :=
  match pieces with
  | [] => ""
  | [p] => p
  | p :: ps => p +:+ ".." +:+ str_join_dotdot ps
  end.

(** Every piece but the last is followed by a separator that the scan
    met first: the piece with one dot added holds no separator; the last
    piece holds none. *)
Fixpoint pieces_first (pieces : list string) : Prop :=
  match pieces with
  | [] => True
  | [p] => str_contains_dotdot p = false
  | p :: ps => str_contains_dotdot (p +:+ ".") = false ∧ pieces_first ps
  end.

(** ** Metadata *)
Record multiplicity : Type :=
  Multiplicity { mult_max : string; mult_min : string }.

Record parameter : Type :=
  Param { param_name : option string; param_type : option string }.

Record meta_entry : Type :=
  MetaEntry { entry_class : option string;
              entry_documentation : string;
              entry_isRoot : bool;
              entry_max : option string;
              entry_min : option string;
              entry_parameters : list parameter }.

(** One iteration of the loop that fills [class_multiplicity]. *)
Definition add_multiplicity
    (class_multiplicity : dict (option string) multiplicity)
    (agg : aggregation_elem) : result (dict (option string) multiplicity) :=
  let source := agg_source agg in
  match agg_sourceMultiplicity agg with
  | None => Err TypeError
  | Some source_mult =>
      '(min_s, max_s) ←
        (if str_contains_dotdot source_mult then
           match str_split_dotdot source_mult with
           | [min_s; max_s] => Ok (min_s, max_s)
           | _ => Err UnpackError
           end
         else Ok (source_mult, source_mult));
      Ok (dict_set source (Multiplicity max_s min_s) class_multiplicity)
  end.

Definition build_class_multiplicity (aggs : list aggregation_elem)
  : result (dict (option string) multiplicity) :=
  fold_left (λ acc agg, class_multiplicity ← acc;
                        add_multiplicity class_multiplicity agg)
    aggs (Ok []).

Definition make_entry (class_multiplicity : dict (option string) multiplicity)
    (class_name : option string) (class_info : class_info) : meta_entry :=
  let mm :=
    if dict_in class_name class_multiplicity && negb (isRoot class_info)
    then dict_get class_name class_multiplicity else None in
  let parameters :=
    map (λ attr, Param (attr_name attr) (attr_type attr))
        (attributes class_info) in
  let parameters :=
    fold_left (λ ps child, ps ++ [Param (child_name child) (Some "class")])
      (children class_info) parameters in
  MetaEntry class_name (documentation class_info) (isRoot class_info)
            (mult_max <$> mm) (mult_min <$> mm) parameters.

Definition generate_meta_json (self : XMLProcessor) : result (list meta_entry) :=
  let root := xml_content self in
  class_multiplicity ← build_class_multiplicity (findall_Aggregation root);
  let meta_data :=
    fold_left (λ meta_data '(class_name, class_info),
        meta_data ++ [make_entry class_multiplicity class_name class_info])
      (classes self) [] in
  Ok meta_data.

(** The [{max, min}] record one aggregation yields, when it yields one. *)
Definition multiplicity_of (agg : aggregation_elem) : option multiplicity :=
  match agg_sourceMultiplicity agg with
  | None => None
  | Some source_mult =>
      if str_contains_dotdot source_mult then
        match str_split_dotdot source_mult with
        | [min_s; max_s] => Some (Multiplicity max_s min_s)
        | _ => None
        end
      else Some (Multiplicity source_mult source_mult)
  end.

(** The last aggregation, in document order, whose source is [c]. *)
Definition last_aggregation_of (c : option string)
    (aggs : list aggregation_elem) : option aggregation_elem :=
  last (filter (λ a, agg_source a = c) aggs).

(** The body of the loop over the aggregations. *)
Definition multiplicity_step (acc : result (dict (option string) multiplicity))
    (agg : aggregation_elem) : result (dict (option string) multiplicity) :=
  class_multiplicity ← acc; add_multiplicity class_multiplicity agg.

(** Two documents that differ at most in the targets of aggregations. *)
Definition same_but_targets (xml xml' : document) : Prop :=
  Forall2 (λ e e',
      match e, e' with
      | EAggregation a, EAggregation a' =>
          agg_source a = agg_source a'
          ∧ agg_sourceMultiplicity a = agg_sourceMultiplicity a'
      | EAggregation _, _ | _, EAggregation _ => False
      | _, _ => e = e'
      end) xml xml'.

(** The class, isRoot, min and max fields of an entry; the name and root
    flag of every class of a table, in order. *)
Definition cardinality_view (e : meta_entry)
  : option string * bool * option string * option string :=
  (entry_class e, entry_isRoot e, entry_min e, entry_max e).

Definition skeleton (classes : class_table) : list (option string * bool) :=
  (λ item, (item.1, isRoot item.2)) <$> classes.

(** ** The scenario of the specification: root [R], class [C] with
    attribute [x : int], one aggregation [C → R] with multiplicity
    ["0..5"]. *)
Definition scenario_doc : document :=
  [ EClass (ClassElem (Some "R") (Some "true") None []);
    EClass (ClassElem (Some "C") (Some "false") None
              [AttributeElem (Some "x") (Some "int")]);
    EAggregation (AggregationElem (Some "C") (Some "R") (Some "0..5")) ].

Definition scenario_tree : xml_element :=
  Element (Some "R") None
    [Element (Some "C") None [Element (Some "x") (Some "int") []]].

Definition scenario_entries : list meta_entry :=
  [ MetaEntry (Some "R") "" true None None [Param (Some "C") (Some "class")];
    MetaEntry (Some "C") "" false (Some "5") (Some "0")
      [Param (Some "x") (Some "int")] ].

(** A root whose only child reference names an undeclared class. *)
Definition dangling_doc : document :=
  [ EClass (ClassElem (Some "R") (Some "true") None []);
    EAggregation (AggregationElem (Some "X") (Some "R") (Some "1")) ].

Definition dangling_aggregation : aggregation_elem :=
  AggregationElem (Some "X") (Some "R") (Some "1").


(** Two classes, none flagged as root. *)
Definition rootless_doc : document :=
  [ EClass (ClassElem (Some "A") (Some "false") (Some "first") []);
    EClass (ClassElem (Some "B") None None
              [AttributeElem (Some "y") (Some "str")]);
    EAggregation (AggregationElem (Some "B") (Some "A") (Some "1..*")) ].

(** [C] is contained in the root with ["0..5"]; a later aggregation with
    source [C] targets a class that does not exist. *)
Definition stray_target_doc : document :=
  [ EClass (ClassElem (Some "R") (Some "true") None []);
    EClass (ClassElem (Some "C") (Some "false") None
              [AttributeElem (Some "x") (Some "int")]);
    EAggregation (AggregationElem (Some "C") (Some "R") (Some "0..5"));
    EAggregation (AggregationElem (Some "C") (Some "Nowhere") (Some "2..7")) ].

Definition stray_aggregation : aggregation_elem :=
  AggregationElem (Some "C") (Some "Nowhere") (Some "2..7").

(** [stray_target_doc] with the stray aggregation pointed at the root. *)
Definition retargeted_doc : document :=
  [ EClass (ClassElem (Some "R") (Some "true") None []);
    EClass (ClassElem (Some "C") (Some "false") None
              [AttributeElem (Some "x") (Some "int")]);
    EAggregation (AggregationElem (Some "C") (Some "R") (Some "0..5"));
    EAggregation (AggregationElem (Some "C") (Some "R") (Some "2..7")) ].

(** ** Further notions used to describe the code *)

(** The two dictionaries have the same keys, and at every key the two
    values are [==]. *)
Definition same_items {V : Type} (py_eq : V → V → bool)
    (a b : dict string V) : Prop :=
  ∀ k, match dict_get k a, dict_get k b with
       | Some v, Some v' => py_eq v v' = true
       | None, None => True
       | _, _ => False
       end.



(** [c] contains itself through one or more child references. *)
Definition on_cycle (classes : class_table) (c : option string) : Prop :=
  ∃ info child,
    dict_get c classes = Some info ∧ child ∈ children info
    ∧ reachable classes (child_name child) c.

(** The multiplicities [generate_meta_json] can unpack: present, and cut
    by the separator into at most two pieces. *)
Definition unpackable (agg : aggregation_elem) : Prop :=
  ∃ m, agg_sourceMultiplicity agg = Some m ∧ length (str_split_dotdot m) ≤ 2.

(** Two documents whose classes agree on name, root flag and attributes,
    and whose aggregations agree on source and target. *)
Definition same_for_render (xml xml' : document) : Prop :=
  Forall2 (λ e e', cls_name e = cls_name e' ∧ cls_isRoot e = cls_isRoot e'
                   ∧ cls_attributes e = cls_attributes e')
    (findall_Class xml) (findall_Class xml')
  ∧ Forall2 (λ a a', agg_source a = agg_source a'
                     ∧ agg_target a = agg_target a')
      (findall_Aggregation xml) (findall_Aggregation xml').

(** Two class tables with the same names, root flags, attributes and
    child names, in the same order. *)
Definition same_shape (classes classes' : class_table) : Prop :=
  Forall2 (λ item item',
      item.1 = item'.1 ∧ isRoot item.2 = isRoot item'.2
      ∧ attributes item.2 = attributes item'.2
      ∧ child_name <$> children item.2 = child_name <$> children item'.2)
    classes classes'.

(** Two root classes, the second declared with a usable name; and a
    model whose two classes contain each other. *)
Definition two_roots_doc : document :=
  [ EClass (ClassElem (Some "A") (Some "true") None []);
    EClass (ClassElem (Some "B") (Some "true") None []) ].

Definition cyclic_doc : document :=
  [ EClass (ClassElem (Some "R") (Some "true") None []);
    EClass (ClassElem (Some "C") None None []);
    EAggregation (AggregationElem (Some "C") (Some "R") (Some "1"));
    EAggregation (AggregationElem (Some "R") (Some "C") (Some "1")) ].

(** An aggregation without multiplicity after a well-formed one, and one
    with two separators. *)
Definition missing_mult_doc : document :=
  [ EClass (ClassElem (Some "R") (Some "true") None []);
    EAggregation (AggregationElem (Some "C") (Some "R") (Some "0..5"));
    EAggregation (AggregationElem (Some "D") (Some "R") None) ].

Definition three_parts_doc : document :=
  [ EClass (ClassElem (Some "R") (Some "true") None []);
    EAggregation (AggregationElem (Some "C") (Some "R") (Some "1..2..3")) ].

(** [scenario_doc] with other multiplicity and documentation, and a
    stray element. *)
Definition redocumented_doc : document :=
  [ EOther "Note";
    EClass (ClassElem (Some "R") (Some "true") (Some "the root") []);
    EClass (ClassElem (Some "C") (Some "false") (Some "a child")
              [AttributeElem (Some "x") (Some "int")]);
    EAggregation (AggregationElem (Some "C") (Some "R") (Some "*")) ].

(** ** Values that are not equal to themselves

    [json.load] also reads the float [NaN], for which [==] is false and
    [!=] true, itself included. *)
Inductive json_nan : Type :=
| JValue (v : json)
| JNaN.

Definition json_nan_eq (a b : json_nan) : bool :=
  match a, b with
  | JValue x, JValue y => json_eq x y
  | _, _ => false
  end.

Definition nan_config : dict string json_nan := [("a", JNaN)].

(** ** The aggregation records of a document, read off its elements

    The child references a class should receive: one per [Aggregation]
    element of the document that targets it, in document order; and the
    class names the document declares. *)
Fixpoint aggregations_targeting (c : option string) (root : document)
  : list child_ref :=
  match root with
  | [] => []
  | EAggregation a :: rest =>
      if decide (agg_target a = c)
      then ChildRef (agg_source a) (agg_sourceMultiplicity a)
             :: aggregations_targeting c rest
      else aggregations_targeting c rest
  | _ :: rest => aggregations_targeting c rest
  end.

Definition declares (root : document) (c : option string) : Prop :=
  ∃ e, EClass e ∈ root ∧ cls_name e = c.


(** A single root class whose name opens a namespace and never closes
    it. *)
Definition brace_name_doc : document :=
  [ EClass (ClassElem (Some "{foo") (Some "true") None []) ].

(** ** ConfigGenerator.run

    The part of [run] that follows the reading and parsing of the three
    input files.  The output directory is a map from file names to what
    the files hold: [open(path, 'w')] creates or truncates the file before
    the value to write is computed, so a computation that raises leaves
    the file empty and the later files untouched.  A written file is
    represented by the value serialised into it. *)
Inductive file_content (V : Type) : Type :=
| Truncated
| ConfigXml (root_element : xml_element)
| MetaJson (meta_data : list meta_entry)
| DeltaJson (d : delta V)
| ResultJson (result_config : dict string V).
Arguments Truncated {V}.
Arguments ConfigXml {V} _.
Arguments MetaJson {V} _.
Arguments DeltaJson {V} _.
Arguments ResultJson {V} _.

Definition run {V : Type} (py_eq : V → V → bool) (fuel : nat)
    (xml_content : document) (config_json patched_config_json : dict string V)
    (out : gmap string (file_content V))
  : gmap string (file_content V) * option error :=
  let xml_processor := XMLProcessor_init xml_content in
  let out := <["config.xml" := Truncated]> out in
  match generate_config_xml fuel xml_processor with
  | Err e => (out, Some e)
  | Ok root_element =>
      let out := <["config.xml" := ConfigXml root_element]> out in
      let out := <["meta.json" := Truncated]> out in
      match generate_meta_json xml_processor with
      | Err e => (out, Some e)
      | Ok meta_data =>
          let out := <["meta.json" := MetaJson meta_data]> out in
          let delta :=
            ConfigDeltaProcessor.generate py_eq config_json
              patched_config_json in
          let out := <["delta.json" := DeltaJson delta]> out in
          let result_config := ConfigDeltaProcessor.apply config_json delta in
          let out :=
            <["res_patched_config.json" := ResultJson result_config]> out in
          (out, None)
      end
  end.

(** * Facts about dictionaries *)
Section dict_facts.
Context {K V : Type} `{EqDecision K}.
Implicit Types (d : dict K V) (k : K) (v : V).

Lemma dict_in_true k d : dict_in k d = true ↔ is_Some (dict_get k d).
Proof.
  unfold dict_in. destruct (dict_get k d); split; intros Hx; eauto;
    try discriminate. by destruct Hx.
Qed.

Lemma dict_in_false k d : dict_in k d = false ↔ dict_get k d = None.
Proof. unfold dict_in. by destruct (dict_get k d). Qed.

Lemma dict_get_None k d : dict_get k d = None ↔ k ∉ dict_keys d.
Proof.
  induction d as [|[k' v'] d IH]; simpl.
  - split; [intros _; apply not_elem_of_nil | done].
  - rewrite not_elem_of_cons. case_decide; subst.
    + split; [done | intros [? _]; done].
    + rewrite IH. tauto.
Qed.

Lemma dict_get_is_Some k d : is_Some (dict_get k d) ↔ k ∈ dict_keys d.
Proof.
  destruct (decide (k ∈ dict_keys d)) as [Hin|Hin].
  - split; [done|intros _]. destruct (dict_get k d) eqn:E; [eauto|].
    by apply dict_get_None in E.
  - split; [|done]. intros [v Hv]. apply dict_get_None in Hin. congruence.
Qed.

Lemma dict_get_elem_of k v d : dict_get k d = Some v → (k, v) ∈ d.
Proof.
  induction d as [|[k' v'] d IH]; simpl; [done|].
  case_decide; subst.
  - intros [= ->]. left.
  - intros Hg. right. auto.
Qed.

Lemma dict_elem_of_get k v d : dict_wf d → (k, v) ∈ d → dict_get k d = Some v.
Proof.
  unfold dict_wf, dict_keys.
  induction d as [|[k' v'] d IH]; simpl; intros Hnd Hin.
  - by apply elem_of_nil in Hin.
  - apply NoDup_cons in Hnd as [Hk' Hnd].
    apply elem_of_cons in Hin as [[= -> ->]|Hin].
    + by rewrite decide_True.
    + rewrite decide_False; [auto|]. intros ->. apply Hk'.
      apply list_elem_of_fmap. by exists (k', v).
Qed.

Lemma dict_get_set_eq k v d : dict_get k (dict_set k v d) = Some v.
Proof.
  induction d as [|[k' v'] d IH]; simpl.
  - by rewrite decide_True.
  - case_decide; subst; simpl.
    + by rewrite decide_True.
    + by rewrite decide_False.
Qed.

Lemma dict_get_set_ne k k' v d :
  k ≠ k' → dict_get k' (dict_set k v d) = dict_get k' d.
Proof.
  intros Hne. induction d as [|[k2 v2] d IH]; simpl.
  - by rewrite decide_False.
  - destruct (decide (k = k2)); subst; simpl.
    + by rewrite !decide_False.
    + by rewrite IH.
Qed.

Lemma dict_get_del_eq k d : dict_get k (dict_del k d) = None.
Proof.
  induction d as [|[k' v'] d IH]; simpl; [done|].
  case_decide; subst; simpl; [done|]. by rewrite decide_False.
Qed.

Lemma dict_get_del_ne k k' d :
  k ≠ k' → dict_get k' (dict_del k d) = dict_get k' d.
Proof.
  intros Hne. induction d as [|[k2 v2] d IH]; simpl; [done|].
  destruct (decide (k = k2)); subst; simpl.
  - by rewrite decide_False.
  - by rewrite IH.
Qed.

Lemma dict_del_absent k d : dict_get k d = None → dict_del k d = d.
Proof.
  induction d as [|[k' v'] d IH]; simpl; [done|].
  case_decide; [done|]. intros Hg. by rewrite IH.
Qed.

Lemma dict_keys_set k v d :
  dict_keys (dict_set k v d) =
    if dict_in k d then dict_keys d else dict_keys d ++ [k].
Proof.
  unfold dict_in, dict_keys.
  induction d as [|[k' v'] d IH]; simpl; [done|].
  case_decide; subst; [done|].
  rewrite fmap_cons, IH. by destruct (dict_get k d).
Qed.

Lemma dict_keys_del k d :
  dict_keys (dict_del k d) = filter (λ k', k' ≠ k) (dict_keys d).
Proof.
  unfold dict_keys.
  induction d as [|[k' v'] d IH]; simpl; [done|].
  case_decide; subst.
  - rewrite filter_cons_False; [done|]. simpl. tauto.
  - rewrite filter_cons_True; [|simpl; congruence]. by rewrite fmap_cons, IH.
Qed.

Lemma dict_wf_set k v d : dict_wf d → dict_wf (dict_set k v d).
Proof.
  unfold dict_wf. rewrite dict_keys_set. intros Hnd.
  destruct (dict_in k d) eqn:E; [done|].
  apply dict_in_false, dict_get_None in E.
  apply NoDup_app; split_and!; [done| |apply NoDup_singleton].
  intros x Hx ->%list_elem_of_singleton. done.
Qed.

Lemma dict_wf_del k d : dict_wf d → dict_wf (dict_del k d).
Proof. unfold dict_wf. rewrite dict_keys_del. apply NoDup_filter. Qed.

(** A loop that appends to an accumulator under a condition collects the
    selected items in iteration order. *)
Lemma fold_left_append_omap {A B} (f : A → option B) (l : list A) (acc : list B) :
  fold_left (λ acc x, match f x with Some y => acc ++ [y] | None => acc end) l acc
  = acc ++ omap f l.
Proof.
  revert acc. induction l as [|x l IH]; intros acc; simpl.
  - by rewrite app_nil_r.
  - rewrite IH. destruct (f x); simpl; [|done].
    by rewrite <- app_assoc.
Qed.

End dict_facts.

(** * The scenarios of the specification, evaluated *)

Example apply_heap_example :
  (λ r, (r.1 !! 1%positive, r.1 !! r.2, r.2))
    <$> ConfigDeltaProcessor.apply_heap example_heap 1%positive
          (ConfigDeltaProcessor.generate json_eq example_base example_patched)
  = Some (Some example_base, Some example_patched, 2%positive).
Proof. vm_compute. reflexivity. Qed.

Example contains_examples :
  str_contains_dotdot "0..5" = true ∧ str_contains_dotdot "1.5" = false
  ∧ str_contains_dotdot "*" = false ∧ str_contains_dotdot "a.." = true.
Proof. vm_compute. repeat split. Qed.

Example generate_example :
  ConfigDeltaProcessor.generate json_eq example_base example_patched
  = Delta [Addition "c" (JInt 4)] ["a"] [Update "b" (JInt 2) (JInt 3)].
Proof. vm_compute. reflexivity. Qed.

Example apply_example :
  ConfigDeltaProcessor.apply example_base
    (ConfigDeltaProcessor.generate json_eq example_base example_patched)
  = example_patched.
Proof. vm_compute. reflexivity. Qed.

Example scenario_render :
  generate_config_xml 2 (XMLProcessor_init scenario_doc)
  = Ok (Element (Some "R") None
          [Element (Some "C") None [Element (Some "x") (Some "int") []]]).
Proof. vm_compute. reflexivity. Qed.

Example scenario_meta :
  generate_meta_json (XMLProcessor_init scenario_doc)
  = Ok [ MetaEntry (Some "R") "" true None None [Param (Some "C") (Some "class")];
         MetaEntry (Some "C") "" false (Some "5") (Some "0")
           [Param (Some "x") (Some "int")] ].
Proof. vm_compute. reflexivity. Qed.

Example split_examples :
  str_split_dotdot "0..5" = ["0"; "5"] ∧ str_split_dotdot "1...5" = ["1"; ".5"]
  ∧ str_split_dotdot "1..2..3" = ["1"; "2"; "3"] ∧ str_split_dotdot "*" = ["*"]
  ∧ str_split_dotdot "...." = [""; ""; ""] ∧ str_split_dotdot ".." = [""; ""].
Proof. vm_compute. repeat split. Qed.

(** * Facts about the delta engine *)
Section delta_facts.
Context {V : Type} (py_eq : V → V → bool).
Import ConfigDeltaProcessor.

Implicit Types (d base patched : dict string V) (k key : string).

Lemma get_apply_deletion k d key :
  dict_get k (apply_deletion d key)
  = if decide (k = key) then None else dict_get k d.
Proof.
  unfold apply_deletion. destruct (dict_in key d) eqn:E.
  - case_decide; subst; [apply dict_get_del_eq|]. by apply dict_get_del_ne.
  - apply dict_in_false in E. case_decide; by subst.
Qed.

Lemma get_fold_deletion k dels d :
  dict_get k (fold_left apply_deletion dels d)
  = if decide (k ∈ dels) then None else dict_get k d.
Proof.
  revert d. induction dels as [|key dels IH]; intros d; cbn [fold_left].
  - case_decide as Hin; [by apply elem_of_nil in Hin|done].
  - rewrite IH, get_apply_deletion.
    destruct (decide (k ∈ dels)) as [Hin|Hin].
    + rewrite decide_True; [done|]. by right.
    + destruct (decide (k = key)) as [->|Hne].
      * rewrite decide_True; [done|]. left.
      * rewrite decide_False; [done|]. rewrite elem_of_cons. tauto.
Qed.

Lemma get_apply_update k d u :
  dict_get k (apply_update d u)
  = (λ v, if decide (u_key u = k) then u_to u else v) <$> dict_get k d.
Proof.
  unfold apply_update. destruct (dict_in (u_key u) d) eqn:E.
  - case_decide; subst.
    + rewrite dict_get_set_eq. apply dict_in_true in E as [v ->]. done.
    + rewrite dict_get_set_ne by done. by destruct (dict_get k d).
  - apply dict_in_false in E. case_decide; subst.
    + by rewrite E.
    + by destruct (dict_get k d).
Qed.

Lemma get_fold_update k us d :
  dict_get k (fold_left apply_update us d)
  = (λ v, default v (last_update k us)) <$> dict_get k d.
Proof.
  revert d. induction us as [|u us IH]; intros d; simpl.
  - by destruct (dict_get k d).
  - rewrite IH, get_apply_update. unfold last_update.
    destruct (decide (u_key u = k)) as [Hk|Hk].
    + rewrite filter_cons_True by done. rewrite last_cons.
      destruct (dict_get k d) as [v|]; [|done].
      by destruct (last (filter _ us)).
    + rewrite filter_cons_False by done. by destruct (dict_get k d).
Qed.

Lemma get_fold_addition k al d :
  dict_get k (fold_left apply_addition al d)
  = match last_addition k al with
    | Some v => Some v
    | None => dict_get k d
    end.
Proof.
  revert d. induction al as [|a al IH]; intros d; simpl; [done|].
  rewrite IH. unfold last_addition, apply_addition.
  destruct (decide (a_key a = k)) as [Hk|Hk].
  - rewrite filter_cons_True by done. rewrite last_cons.
    destruct (last (filter _ al)); simpl; [done|].
    subst. apply dict_get_set_eq.
  - rewrite filter_cons_False by done.
    destruct (last (filter _ al)); simpl; [done|].
    by apply dict_get_set_ne.
Qed.

(** What [apply] leaves under each key. *)
Lemma get_apply k base (dl : delta V) :
  dict_get k (apply base dl)
  = match last_addition k (additions dl) with
    | Some v => Some v
    | None =>
        if decide (k ∈ deletions dl) then None
        else (λ v, default v (last_update k (updates dl))) <$> dict_get k base
    end.
Proof.
  unfold apply. rewrite get_fold_addition, get_fold_update, get_fold_deletion.
  destruct (last_addition _ _); [done|]. by case_decide.
Qed.

Lemma apply_deletion_wf d key : dict_wf d → dict_wf (apply_deletion d key).
Proof. unfold apply_deletion. destruct (dict_in _ _); auto using dict_wf_del. Qed.

Lemma apply_update_wf d u : dict_wf d → dict_wf (apply_update d u).
Proof. unfold apply_update. destruct (dict_in _ _); auto using dict_wf_set. Qed.

Lemma fold_left_wf {A} (f : dict string V → A → dict string V) l d :
  (∀ d x, dict_wf d → dict_wf (f d x)) → dict_wf d → dict_wf (fold_left f l d).
Proof. intros Hf. revert d. induction l; simpl; auto. Qed.

Lemma apply_wf base (dl : delta V) : dict_wf base → dict_wf (apply base dl).
Proof.
  intros Hwf. unfold apply.
  apply fold_left_wf; [intros; by apply dict_wf_set|].
  apply fold_left_wf; [apply apply_update_wf|].
  apply fold_left_wf; [apply apply_deletion_wf|done].
Qed.

(** C4: [apply] works on the items of [base] and applies deletions, then
    updates, then additions.  Under every key the result holds the last
    addition of that key if there is one (also when the key is listed for
    deletion); otherwise nothing if the key is deleted or absent from
    [base] (an update of such a key inserts nothing); otherwise the last
    update of the key, or the value of [base].  Deleting an absent key
    changes nothing. *)
Theorem apply_order base (dl : delta V) :
  (∀ k, dict_get k (apply base dl)
        = match last_addition k (additions dl) with
          | Some v => Some v
          | None =>
              if decide (k ∈ deletions dl) then None
              else match dict_get k base with
                   | Some v => Some (default v (last_update k (updates dl)))
                   | None => None
                   end
          end)
  ∧ (∀ k v, k ∈ deletions dl → last_addition k (additions dl) = Some v →
            dict_get k (apply base dl) = Some v)
  ∧ (∀ k, dict_get k base = None →
          apply base (Delta [] [k] []) = base)
  ∧ (∀ k from to, dict_get k base = None →
          apply base (Delta [] [] [Update k from to]) = base)
  ∧ (∀ k from to, apply base (Delta [] [k] [Update k from to])
                  = dict_del k base)
  ∧ apply base (Delta [] [] []) = base.
Proof.
  split_and!.
  - intros k. rewrite get_apply. destruct (last_addition _ _); [done|].
    case_decide; [done|]. by destruct (dict_get k base).
  - intros k v _ Hadd. by rewrite get_apply, Hadd.
  - intros k Hk. unfold apply, apply_deletion; simpl.
    by apply dict_in_false in Hk as ->.
  - intros k from to Hk. unfold apply, apply_update; simpl.
    by apply dict_in_false in Hk as ->.
  - intros k from to. unfold apply, apply_deletion, apply_update; simpl.
    destruct (dict_in k base) eqn:E.
    + pose proof (dict_get_del_eq k base) as Hd.
      by apply dict_in_false in Hd as ->.
    + rewrite E. apply dict_in_false in E. by rewrite dict_del_absent.
  - done.
Qed.

End delta_facts.

Section generate_facts.
Context {V : Type} (py_eq : V → V → bool).
Import ConfigDeltaProcessor.

Implicit Types (d base patched : dict string V) (k key : string).

Lemma fold_left_collect {A B} (g : list B → A → list B) (f : A → option B) l acc :
  (∀ acc x, g acc x = match f x with Some y => acc ++ [y] | None => acc end) →
  fold_left g l acc = acc ++ omap f l.
Proof.
  intros Hg. rewrite <- fold_left_append_omap. revert acc.
  induction l as [|x l IH]; intros acc; simpl; [done|]. by rewrite Hg, IH.
Qed.

Lemma omap_filter_fmap {A B} (c : A → bool) (g : A → B) (l : list A) :
  omap (λ x, if c x then Some (g x) else None) l
  = g <$> filter (λ x, c x = true) l.
Proof.
  induction l as [|x l IH]; csimpl; [done|].
  destruct (c x) eqn:E.
  - rewrite filter_cons_True by done. by rewrite fmap_cons, IH.
  - rewrite filter_cons_False by congruence. done.
Qed.

Lemma NoDup_fmap_filter {A B} (f : A → B) (P : A → Prop)
    `{∀ x, Decision (P x)} (l : list A) :
  NoDup (f <$> l) → NoDup (f <$> filter P l).
Proof.
  induction l as [|x l IH]; [done|]. rewrite fmap_cons, NoDup_cons.
  intros [Hx Hnd]. destruct (decide (P x)).
  - rewrite filter_cons_True by done. rewrite fmap_cons, NoDup_cons.
    split; [|auto]. intros Hin. apply Hx.
    apply list_elem_of_fmap in Hin as (y & -> & Hy).
    apply list_elem_of_filter in Hy as [_ Hy].
    apply list_elem_of_fmap. eauto.
  - rewrite filter_cons_False by done. auto.
Qed.

Lemma NoDup_fmap_omap {A B C} (f : A → C) (g : B → C) (h : A → option B)
    (l : list A) :
  (∀ x y, h x = Some y → g y = f x) →
  NoDup (f <$> l) → NoDup (g <$> omap h l).
Proof.
  intros Hh. induction l as [|x l IH]; [done|]. rewrite fmap_cons, NoDup_cons.
  intros [Hx Hnd]. csimpl. destruct (h x) as [y|] eqn:E; [|auto].
  rewrite fmap_cons, NoDup_cons. split; [|auto].
  intros Hin. apply Hx.
  apply list_elem_of_fmap in Hin as (y' & Hy' & Hin).
  apply list_elem_of_omap in Hin as (x' & Hx' & Hhx').
  apply list_elem_of_fmap. exists x'. split; [|done].
  rewrite <- (Hh _ _ E), <- (Hh _ _ Hhx'). done.
Qed.

(** With unique keys, the last entry of a key is the only one. *)
Lemma last_filter_key {A} (key_of : A → string) k (l : list A) x :
  NoDup (key_of <$> l) →
  last (filter (λ a, key_of a = k) l) = Some x ↔ x ∈ l ∧ key_of x = k.
Proof.
  induction l as [|a l IH]; intros Hnd.
  - split; [done|]. intros [Hin _]. by apply elem_of_nil in Hin.
  - rewrite fmap_cons in Hnd. apply NoDup_cons in Hnd as [Ha Hnd].
    destruct (decide (key_of a = k)) as [Hk|Hk].
    + rewrite filter_cons_True by done.
      assert (filter (λ a, key_of a = k) l = []) as ->.
      { destruct (filter _ l) as [|y ys] eqn:E; [done|]. exfalso.
        assert (y ∈ filter (λ a, key_of a = k) l) as Hy by (rewrite E; left).
        apply list_elem_of_filter in Hy as [Hyk Hy]. apply Ha.
        apply list_elem_of_fmap. exists y. split; [congruence|done]. }
      simpl. split.
      * intros [= ->]. split; [left|done].
      * intros [Hin Hxk]. apply elem_of_cons in Hin as [->|Hin]; [done|].
        exfalso. apply Ha. apply list_elem_of_fmap. exists x.
        split; [congruence|done].
    + rewrite filter_cons_False by done. rewrite IH by done.
      rewrite elem_of_cons. split; [tauto|].
      intros [[->|Hin] Hxk]; [done|tauto].
Qed.

(** The three loops of [generate], as selections from the items of the
    two dictionaries. *)
Lemma generate_additions base patched :
  additions (generate py_eq base patched)
  = (λ kv, Addition kv.1 kv.2)
      <$> filter (λ kv, negb (dict_in kv.1 base) = true) patched.
Proof.
  unfold generate; simpl.
  rewrite (fold_left_collect _
    (λ kv, if negb (dict_in kv.1 base) then Some (Addition kv.1 kv.2) else None)).
  - apply (omap_filter_fmap (λ kv, negb (dict_in kv.1 base))
             (λ kv, Addition kv.1 kv.2)).
  - intros acc [k v]; simpl. by destruct (dict_in k base).
Qed.

Lemma generate_deletions base patched :
  deletions (generate py_eq base patched)
  = filter (λ k, negb (dict_in k patched) = true) (dict_keys base).
Proof.
  unfold generate; simpl.
  rewrite (fold_left_collect _
    (λ k, if negb (dict_in k patched) then Some (id k) else None)).
  - simpl. rewrite (omap_filter_fmap (λ k, negb (dict_in k patched)) id).
    apply list_fmap_id.
  - intros acc k. by destruct (dict_in k patched).
Qed.

Lemma generate_updates base patched :
  dict_wf base →
  updates (generate py_eq base patched) = omap (update_of py_eq patched) base.
Proof.
  intros Hwf. unfold generate; simpl.
  rewrite (fold_left_collect _
    (λ k, match dict_get k base with
          | Some from => update_of py_eq patched (k, from)
          | None => None
          end)).
  - simpl. unfold dict_keys. rewrite <- (list_fmap_id (omap _ (base.*1))).
    rewrite list_fmap_omap. apply list_omap_ext.
    apply Forall2_fmap_l, Forall_Forall2_diag, Forall_forall.
    intros [k v] Hin; simpl.
    rewrite (dict_elem_of_get k v base) by done.
    by destruct (update_of py_eq patched (k, v)).
  - intros acc k. unfold update_of, py_ne, dict_in; simpl.
    destruct (dict_get k patched) as [to|]; [|by destruct (dict_get k base)].
    destruct (dict_get k base) as [from|]; [|done].
    by destruct (py_eq from to).
Qed.

End generate_facts.

Section generate_spec.
Context {V : Type} (py_eq : V → V → bool).
Import ConfigDeltaProcessor.

Implicit Types (d base patched : dict string V) (k key : string).

Lemma elem_of_additions base patched k v :
  dict_wf patched →
  Addition k v ∈ additions (generate py_eq base patched)
  ↔ dict_get k patched = Some v ∧ dict_get k base = None.
Proof.
  intros Hwf. rewrite generate_additions, list_elem_of_fmap. split.
  - intros ([k' v'] & [= -> ->] & Hin). simpl in *.
    apply list_elem_of_filter in Hin as [Hc Hin]. simpl in *. split.
    + by apply dict_elem_of_get.
    + apply dict_in_false. by destruct (dict_in k' base).
  - intros [Hp Hb]. exists (k, v). split; [done|].
    apply list_elem_of_filter. split; [|by apply dict_get_elem_of].
    simpl. by apply dict_in_false in Hb as ->.
Qed.

Lemma elem_of_deletions base patched k :
  k ∈ deletions (generate py_eq base patched)
  ↔ is_Some (dict_get k base) ∧ dict_get k patched = None.
Proof.
  rewrite generate_deletions, list_elem_of_filter, dict_get_is_Some.
  rewrite <- dict_in_false. destruct (dict_in k patched); simpl; intuition.
Qed.

Lemma elem_of_updates base patched k from to :
  dict_wf base →
  Update k from to ∈ updates (generate py_eq base patched)
  ↔ dict_get k base = Some from ∧ dict_get k patched = Some to
    ∧ py_eq from to = false.
Proof.
  intros Hwf. rewrite generate_updates, list_elem_of_omap by done. split.
  - intros ([k' v'] & Hin & Hu). unfold update_of in Hu; simpl in Hu.
    destruct (dict_get k' patched) as [to'|] eqn:Hp; [|done].
    destruct (py_eq v' to') eqn:Heq; [done|].
    injection Hu as -> -> ->. split_and!; [|done..].
    by apply dict_elem_of_get.
  - intros (Hb & Hp & Hne). exists (k, from). split.
    + by apply dict_get_elem_of.
    + unfold update_of; simpl. by rewrite Hp, Hne.
Qed.

Lemma additions_keys_NoDup base patched :
  dict_wf patched → NoDup (a_key <$> additions (generate py_eq base patched)).
Proof.
  intros Hwf. rewrite generate_additions, <- list_fmap_compose.
  by apply (NoDup_fmap_filter (λ kv : string * V, kv.1)).
Qed.

Lemma deletions_NoDup base patched :
  dict_wf base → NoDup (deletions (generate py_eq base patched)).
Proof. intros Hwf. rewrite generate_deletions. by apply NoDup_filter. Qed.

Lemma updates_keys_NoDup base patched :
  dict_wf base → NoDup (u_key <$> updates (generate py_eq base patched)).
Proof.
  intros Hwf. rewrite generate_updates by done.
  apply (NoDup_fmap_omap (λ kv : string * V, kv.1)); [|done].
  intros [k v] u. unfold update_of; simpl.
  destruct (dict_get k patched); [|done].
  destruct (py_eq _ _); [done|]. by intros [= <-].
Qed.

(** C3 (amended): the three lists of [generate base patched].  Additions
    are the items of [patched] whose key is not in [base], in the order of
    [patched]; deletions are the keys of [base] not in [patched], in the
    order of [base]; updates are the items of [base] whose key is in
    [patched] with an unequal value, with [from] the value of [base] and
    [to] that of [patched].  A key with equal values on both sides is in
    none of the lists, and [generate m m] is the empty delta exactly when
    every value of [m] is equal to itself. *)
Theorem generate_spec base patched :
  dict_wf base → dict_wf patched →
  let dl := generate py_eq base patched in
  additions dl
    = (λ kv, Addition kv.1 kv.2)
        <$> filter (λ kv, dict_get kv.1 base = None) patched
  ∧ deletions dl = filter (λ k, dict_get k patched = None) (dict_keys base)
  ∧ updates dl
    = omap (λ kv, match dict_get kv.1 patched with
                  | Some to =>
                      if py_eq kv.2 to then None
                      else Some (Update kv.1 kv.2 to)
                  | None => None
                  end) base
  ∧ (∀ k v, Addition k v ∈ additions dl
            ↔ dict_get k patched = Some v ∧ dict_get k base = None)
  ∧ (∀ k, k ∈ deletions dl
          ↔ is_Some (dict_get k base) ∧ dict_get k patched = None)
  ∧ (∀ k from to, Update k from to ∈ updates dl
                  ↔ dict_get k base = Some from ∧ dict_get k patched = Some to
                    ∧ py_eq from to = false)
  ∧ (∀ k v v', dict_get k base = Some v → dict_get k patched = Some v' →
               py_eq v v' = true →
               (k ∉ a_key <$> additions dl) ∧ (k ∉ deletions dl)
               ∧ (k ∉ u_key <$> updates dl))
  ∧ (generate py_eq base base = Delta [] [] []
     ↔ ∀ k v, dict_get k base = Some v → py_eq v v = true).
Proof.
  intros Hb Hp dl. subst dl. split_and!.
  - rewrite generate_additions. f_equal. apply list_filter_iff.
    intros [k v]; simpl. rewrite <- dict_in_false.
    by destruct (dict_in k base).
  - rewrite generate_deletions. apply list_filter_iff.
    intros k. rewrite <- dict_in_false. by destruct (dict_in k patched).
  - by apply generate_updates.
  - intros k v. by apply elem_of_additions.
  - apply elem_of_deletions.
  - intros k from to. by apply elem_of_updates.
  - intros k v v' Hkb Hkp Heq. split_and!.
    + intros (a & -> & Ha)%list_elem_of_fmap. destruct a as [k a].
      apply elem_of_additions in Ha as [_ Ha]; [|done]. simpl in *. congruence.
    + intros [_ Hd]%elem_of_deletions. congruence.
    + intros (u & -> & Hu)%list_elem_of_fmap. destruct u as [k from to].
      apply elem_of_updates in Hu as (Hf & Ht & Hne); [|done].
      simpl in *. congruence.
  - split.
    + intros Hgen k v Hk. destruct (py_eq v v) eqn:Heq; [done|].
      assert (Update k v v ∈ updates (generate py_eq base base)) as Hin
        by (by apply elem_of_updates).
      rewrite Hgen in Hin. by apply elem_of_nil in Hin.
    + intros Hrefl.
      assert (additions (generate py_eq base base) = []) as Ha.
      { rewrite generate_additions.
        destruct (filter _ base) as [|[k v] l] eqn:E; [done|].
        assert ((k, v) ∈ filter (λ kv, negb (dict_in kv.1 base) = true) base)
          as [Hc Hin]%list_elem_of_filter by (rewrite E; left).
        simpl in Hc. pose proof (dict_elem_of_get _ _ _ Hb Hin) as Hg.
        unfold dict_in in Hc. by rewrite Hg in Hc. }
      assert (deletions (generate py_eq base base) = []) as Hd.
      { destruct (deletions _) as [|k l] eqn:E; [done|].
        assert (k ∈ deletions (generate py_eq base base))
          as [[v Hv] Hn]%elem_of_deletions by (rewrite E; left).
        congruence. }
      assert (updates (generate py_eq base base) = []) as Hu.
      { destruct (updates _) as [|[k from to] l] eqn:E; [done|].
        assert (Update k from to ∈ updates (generate py_eq base base))
          as (Hf & Ht & Hne)%elem_of_updates by (rewrite E; left); [|done].
        rewrite Hf in Ht. injection Ht as ->.
        by rewrite (Hrefl _ _ Hf) in Hne. }
      destruct (generate py_eq base base); simpl in *. by subst.
Qed.

(** The claim of C3 as first stated fails on [nan_config]: a value that
    is not equal to itself is reported as an update of its key when the
    dictionary is compared with itself. *)
Lemma generate_self_nan_counterexample :
  dict_wf nan_config
  ∧ generate json_nan_eq nan_config nan_config
    = Delta [] [] [Update "a" JNaN JNaN]
  ∧ generate json_nan_eq nan_config nan_config ≠ Delta [] [] [].
Proof.
  split_and!.
  - apply (bool_decide_unpack _). by vm_compute.
  - by vm_compute.
  - by vm_compute.
Qed.

End generate_spec.

Section roundtrip.
Context {V : Type} (py_eq : V → V → bool).
Import ConfigDeltaProcessor.
Local Arguments generate : simpl never.

Implicit Types (d base patched : dict string V) (k key : string).

Lemma last_addition_generate base patched k v :
  dict_wf patched →
  last_addition k (additions (generate py_eq base patched)) = Some v
  ↔ dict_get k patched = Some v ∧ dict_get k base = None.
Proof.
  intros Hp. rewrite <- (elem_of_additions py_eq) by done.
  unfold last_addition. rewrite fmap_Some. split.
  - intros (a & Ha & ->). apply last_filter_key in Ha as [Hin <-].
    + by destruct a.
    + by apply additions_keys_NoDup.
  - intros Hin. exists (Addition k v). split; [|done].
    apply last_filter_key; [by apply additions_keys_NoDup|done].
Qed.

Lemma last_update_generate base patched k to :
  dict_wf base →
  last_update k (updates (generate py_eq base patched)) = Some to
  ↔ ∃ from, dict_get k base = Some from ∧ dict_get k patched = Some to
            ∧ py_eq from to = false.
Proof.
  intros Hb. unfold last_update. rewrite fmap_Some. split.
  - intros (u & Hu & ->). apply last_filter_key in Hu as [Hin <-].
    + destruct u as [k from to]. exists from. by apply elem_of_updates in Hin.
    + by apply updates_keys_NoDup.
  - intros (from & Hall). exists (Update k from to). split; [|done].
    apply last_filter_key; [by apply updates_keys_NoDup|].
    split; [|done]. by apply elem_of_updates.
Qed.

(** What the round trip leaves under each key: the value of [patched],
    or the value of [base] where [generate] found the two equal. *)
Lemma get_roundtrip base patched k :
  dict_wf base → dict_wf patched →
  dict_get k (apply base (generate py_eq base patched))
  = match dict_get k patched with
    | Some v' =>
        Some match dict_get k base with
             | Some v => if py_eq v v' then v else v'
             | None => v'
             end
    | None => None
    end.
Proof.
  intros Hb Hp. rewrite get_apply.
  destruct (last_addition _ _) as [va|] eqn:Ea.
  { apply last_addition_generate in Ea as [-> ->]; done. }
  case_decide as Hd.
  { apply elem_of_deletions in Hd as [_ ->]. done. }
  destruct (last_update _ _) as [to|] eqn:Eu.
  - apply last_update_generate in Eu as (from & -> & -> & Hne); [|done].
    simpl. by rewrite Hne.
  - destruct (dict_get k base) as [v|] eqn:Eb;
      destruct (dict_get k patched) as [v'|] eqn:Ep; simpl; try done.
    + f_equal. destruct (py_eq v v') eqn:Heq; [done|].
      assert (last_update k (updates (generate py_eq base patched)) = Some v')
        as Hu by (apply last_update_generate; eauto).
      congruence.
    + exfalso. apply Hd, elem_of_deletions. eauto.
    + assert (last_addition k (additions (generate py_eq base patched)) = Some v')
        as Ha by (by apply last_addition_generate).
      congruence.
Qed.

Lemma dict_wf_same_keys_length (a b : dict string V) :
  dict_wf a → dict_wf b →
  (∀ k, is_Some (dict_get k a) ↔ is_Some (dict_get k b)) →
  length a = length b.
Proof.
  intros Ha Hb Hk.
  rewrite <- (length_fmap fst a), <- (length_fmap fst b).
  apply Permutation_length, NoDup_Permutation; [done..|].
  intros k. specialize (Hk k). by rewrite !dict_get_is_Some in Hk.
Qed.


End roundtrip.

Section apply_heap_facts.
Context {V : Type}.
Import ConfigDeltaProcessor.

Implicit Types (h : gmap positive (dict string V)) (r : positive).

Lemma heap_contains_insert h r d key :
  heap_contains (<[r := d]> h) r key = dict_in key d.
Proof. unfold heap_contains. by rewrite lookup_insert_eq. Qed.

Lemma heap_delitem_insert h r d key :
  heap_delitem (<[r := d]> h) r key = <[r := dict_del key d]> h.
Proof. unfold heap_delitem. apply alter_insert_eq. Qed.

Lemma heap_setitem_insert h r d key v :
  heap_setitem (<[r := d]> h) r key v = <[r := dict_set key v d]> h.
Proof. unfold heap_setitem. apply alter_insert_eq. Qed.

Lemma fold_heap_deletions h r dels d :
  fold_left (λ h key, if heap_contains h r key
                      then heap_delitem h r key else h) dels (<[r := d]> h)
  = <[r := fold_left apply_deletion dels d]> h.
Proof.
  revert d. induction dels as [|key dels IH]; intros d; simpl; [done|].
  rewrite heap_contains_insert, heap_delitem_insert.
  unfold apply_deletion at 2. destruct (dict_in key d); apply IH.
Qed.

Lemma fold_heap_updates h r (us : list (update_entry V)) d :
  fold_left (λ h update,
      if heap_contains h r (u_key update)
      then heap_setitem h r (u_key update) (u_to update) else h)
    us (<[r := d]> h)
  = <[r := fold_left apply_update us d]> h.
Proof.
  revert d. induction us as [|u us IH]; intros d; simpl; [done|].
  rewrite heap_contains_insert, heap_setitem_insert.
  unfold apply_update at 2. destruct (dict_in (u_key u) d); apply IH.
Qed.

Lemma fold_heap_additions h r (al : list (addition_entry V)) d :
  fold_left (λ h addition,
      heap_setitem h r (a_key addition) (a_value addition))
    al (<[r := d]> h)
  = <[r := fold_left apply_addition al d]> h.
Proof.
  revert d. induction al as [|a al IH]; intros d; simpl; [done|].
  rewrite heap_setitem_insert. apply IH.
Qed.

(** C8: run on an object store in which [config_json] names the
    dictionary [base], [apply] returns a reference that was not allocated
    before, leaves [config_json] and every other object of the store as
    they were, and the new object holds the result. *)
Theorem apply_preserves_base h (config_json : positive) (base : dict string V)
    (dl : delta V) :
  h !! config_json = Some base →
  ∃ h' result,
    apply_heap h config_json dl = Some (h', result)
    ∧ h !! result = None
    ∧ result ≠ config_json
    ∧ h' !! config_json = Some base
    ∧ (∀ r, r ≠ result → h' !! r = h !! r)
    ∧ h' !! result = Some (apply base dl).
Proof.
  intros Hbase.
  pose proof (is_fresh (dom h)) as Hfresh.
  set (result := fresh (dom h)) in *.
  apply not_elem_of_dom in Hfresh.
  assert (result ≠ config_json) as Hne by congruence.
  exists (<[result := apply base dl]> h), result. split_and!.
  - unfold apply_heap, heap_copy. rewrite Hbase; simpl.
    fold result.
    by rewrite fold_heap_deletions, fold_heap_updates, fold_heap_additions.
  - done.
  - done.
  - by rewrite lookup_insert_ne.
  - intros r Hr. by rewrite lookup_insert_ne.
  - by rewrite lookup_insert_eq.
Qed.

End apply_heap_facts.

(** * Facts about the class table *)
Section parse_facts.
Implicit Types (classes : class_table) (c : option string)
  (a agg : aggregation_elem) (root : document).

Lemma add_children_nil info : add_children info [] = info.
Proof. destruct info. unfold add_children; simpl. by rewrite app_nil_r. Qed.

Lemma add_children_app info l1 l2 :
  add_children (add_children info l1) l2 = add_children info (l1 ++ l2).
Proof. unfold add_children; simpl. by rewrite app_assoc. Qed.

Lemma get_add_aggregation classes a c :
  dict_get c (add_aggregation classes a)
  = (λ info, if decide (agg_target a = c)
             then add_children info [child_of a] else info)
      <$> dict_get c classes.
Proof.
  unfold add_aggregation.
  destruct (dict_get (agg_target a) classes) as [info|] eqn:E.
  - case_decide; subst.
    + by rewrite dict_get_set_eq, E.
    + rewrite dict_get_set_ne by done. by destruct (dict_get c classes).
  - case_decide; subst.
    + by rewrite E.
    + by destruct (dict_get c classes).
Qed.

Lemma get_fold_add_aggregation classes aggs c :
  dict_get c (fold_left add_aggregation aggs classes)
  = (λ info, add_children info
               (child_of <$> filter (λ a, agg_target a = c) aggs))
      <$> dict_get c classes.
Proof.
  revert classes. induction aggs as [|a aggs IH]; intros classes.
  - simpl. destruct (dict_get c classes) as [info|]; [|done].
    simpl. by rewrite add_children_nil.
  - cbn [fold_left]. rewrite IH, get_add_aggregation.
    destruct (dict_get c classes) as [info|]; [|done]. simpl. f_equal.
    destruct (decide (agg_target a = c)).
    + rewrite filter_cons_True by done. by rewrite add_children_app.
    + by rewrite filter_cons_False by done.
Qed.

Lemma keys_add_aggregation classes a :
  dict_keys (add_aggregation classes a) = dict_keys classes.
Proof.
  unfold add_aggregation.
  destruct (dict_get (agg_target a) classes) eqn:E; [|done].
  rewrite dict_keys_set. unfold dict_in. by rewrite E.
Qed.

Lemma keys_fold_add_aggregation classes aggs :
  dict_keys (fold_left add_aggregation aggs classes) = dict_keys classes.
Proof.
  revert classes. induction aggs as [|a aggs IH]; intros classes; [done|].
  simpl. by rewrite IH, keys_add_aggregation.
Qed.

Lemma elem_of_keys_fold_add_class classes (elems : list class_elem) c :
  c ∈ dict_keys (fold_left add_class elems classes)
  ↔ c ∈ dict_keys classes ∨ c ∈ cls_name <$> elems.
Proof.
  revert classes. induction elems as [|e elems IH]; intros classes.
  - simpl. rewrite elem_of_nil. tauto.
  - cbn [fold_left]. rewrite IH, fmap_cons, elem_of_cons.
    unfold add_class. rewrite dict_keys_set.
    destruct (dict_in (cls_name e) classes) eqn:E.
    + apply dict_in_true, dict_get_is_Some in E. split; [tauto|].
      intros [?|[->|?]]; tauto.
    + rewrite elem_of_app, list_elem_of_singleton. tauto.
Qed.

Lemma fold_add_class_children classes (elems : list class_elem) c info :
  dict_get c (fold_left add_class elems classes) = Some info →
  children info = [] ∨ dict_get c classes = Some info.
Proof.
  revert classes. induction elems as [|e elems IH]; intros classes; [by right|].
  cbn [fold_left]. intros [Hnil|Hget]%IH; [by left|].
  unfold add_class in Hget. destruct (decide (cls_name e = c)) as [<-|Hne].
  - rewrite dict_get_set_eq in Hget. injection Hget as <-. by left.
  - rewrite dict_get_set_ne in Hget by done. by right.
Qed.

Lemma fold_add_class_wf classes (elems : list class_elem) :
  dict_wf classes → dict_wf (fold_left add_class elems classes).
Proof.
  revert classes. induction elems as [|e elems IH]; intros classes Hwf; [done|].
  apply IH. by apply dict_wf_set.
Qed.

Lemma parse_wf root : dict_wf (_parse_xml_classes root).
Proof.
  unfold _parse_xml_classes, dict_wf. rewrite keys_fold_add_aggregation.
  apply fold_add_class_wf. apply NoDup_nil_2.
Qed.

Lemma parse_known root c :
  is_Some (dict_get c (_parse_xml_classes root))
  ↔ c ∈ cls_name <$> findall_Class root.
Proof.
  rewrite dict_get_is_Some. unfold _parse_xml_classes.
  rewrite keys_fold_add_aggregation, elem_of_keys_fold_add_class.
  unfold dict_keys. simpl. rewrite elem_of_nil. tauto.
Qed.

Lemma parse_children root c info :
  dict_get c (_parse_xml_classes root) = Some info →
  children info
  = child_of <$> filter (λ a, agg_target a = c) (findall_Aggregation root).
Proof.
  unfold _parse_xml_classes. rewrite get_fold_add_aggregation.
  intros (info0 & Hget & ->)%fmap_Some. simpl.
  apply fold_add_class_children in Hget as [->|Hget]; [done|]. done.
Qed.

Lemma findall_Aggregation_app root1 root2 :
  findall_Aggregation (root1 ++ root2)
  = findall_Aggregation root1 ++ findall_Aggregation root2.
Proof. apply omap_app. Qed.

Lemma findall_Class_app root1 root2 :
  findall_Class (root1 ++ root2) = findall_Class root1 ++ findall_Class root2.
Proof. apply omap_app. Qed.

Lemma aggregations_targeting_findall c root :
  aggregations_targeting c root
  = child_of <$> filter (λ a, agg_target a = c) (findall_Aggregation root).
Proof.
  unfold findall_Aggregation.
  induction root as [|e root IH]; [done|]. csimpl.
  destruct e as [cl|a|other]; simpl; try exact IH.
  destruct (decide (agg_target a = c)).
  - rewrite filter_cons_True by done. rewrite fmap_cons. by rewrite IH.
  - by rewrite filter_cons_False by done.
Qed.

Lemma aggregations_targeting_app c root1 root2 :
  aggregations_targeting c (root1 ++ root2)
  = aggregations_targeting c root1 ++ aggregations_targeting c root2.
Proof.
  induction root1 as [|e root1 IH]; [done|].
  destruct e as [cl|a|other]; simpl; try exact IH.
  case_decide; simpl; by rewrite IH.
Qed.

Lemma declares_findall root c :
  declares root c ↔ c ∈ cls_name <$> findall_Class root.
Proof.
  unfold declares, findall_Class. rewrite list_elem_of_fmap. split.
  - intros (e & Hin & <-). exists e. split; [done|].
    apply list_elem_of_omap. by exists (EClass e).
  - intros (e & -> & Hin). exists e. split; [|done].
    apply list_elem_of_omap in Hin as (el & Hel & Heq).
    destruct el; by simplify_eq.
Qed.

(** C7: after parsing, the table holds exactly the classes the document
    declares, and the children list of every class holds one
    [{source, sourceMultiplicity}] per [Aggregation] element of the
    document that targets it, in document order.  An [Aggregation] element
    whose target is declared puts its reference into the children of the
    target, between those of the elements before it and those of the
    elements after it; one whose target is not declared leaves the table as
    it is without the element. *)
Theorem parse_aggregations root :
  (∀ c info, dict_get c (_parse_xml_classes root) = Some info →
     children info = aggregations_targeting c root)
  ∧ (∀ c, is_Some (dict_get c (_parse_xml_classes root)) ↔ declares root c)
  ∧ (∀ root1 root2 a,
       root = root1 ++ EAggregation a :: root2 →
       declares root (agg_target a) →
       ∃ info,
         dict_get (agg_target a) (_parse_xml_classes root) = Some info
         ∧ children info
           = aggregations_targeting (agg_target a) root1
             ++ ChildRef (agg_source a) (agg_sourceMultiplicity a)
                :: aggregations_targeting (agg_target a) root2)
  ∧ (∀ root1 root2 a,
       root = root1 ++ EAggregation a :: root2 →
       ¬ declares root (agg_target a) →
       _parse_xml_classes root = _parse_xml_classes (root1 ++ root2)).
Proof.
  split_and!.
  - intros c info Hget. rewrite aggregations_targeting_findall.
    by apply parse_children.
  - intros c. rewrite declares_findall. apply parse_known.
  - intros root1 root2 a -> Hdecl.
    apply declares_findall, parse_known in Hdecl as [info Hget].
    exists info. split; [done|].
    rewrite (parse_children _ _ _ Hget), <- aggregations_targeting_findall.
    rewrite aggregations_targeting_app. simpl. by rewrite decide_True.
  - intros root1 root2 a -> Hunknown. rewrite declares_findall in Hunknown.
    assert (findall_Class (root1 ++ EAggregation a :: root2)
            = findall_Class (root1 ++ root2)) as Hcls.
    { by rewrite !findall_Class_app. }
    rewrite Hcls in Hunknown. unfold _parse_xml_classes. rewrite Hcls.
    rewrite !findall_Aggregation_app. simpl.
    rewrite !fold_left_app. cbn [fold_left]. f_equal.
    set (cs := fold_left add_aggregation (findall_Aggregation root1) _).
    assert (dict_get (agg_target a) cs = None) as Hnone.
    { apply dict_get_None. unfold cs.
      rewrite keys_fold_add_aggregation, elem_of_keys_fold_add_class.
      intros [Hin|Hin]; [by apply elem_of_nil in Hin|done]. }
    unfold add_aggregation. by rewrite Hnone.
Qed.

End parse_facts.

(** * Facts about the renderer *)

Section render_facts.
Implicit Types (classes : class_table) (c : option string).

Lemma fold_attributes (attrs : list attribute_elem) c l :
  fold_left (λ element attr, append element (attr_element attr)) attrs
    (Element c None l)
  = Element c None (l ++ (attr_element <$> attrs)).
Proof.
  revert l. induction attrs as [|a attrs IH]; intros l; simpl.
  - by rewrite app_nil_r.
  - rewrite IH. by rewrite <- app_assoc.
Qed.

Lemma build_S fuel classes c :
  build_xml_structure (S fuel) classes c
  = match dict_get c classes with
    | None => Err (KeyError c)
    | Some info =>
        fold_left (child_step fuel classes) (children info)
          (Ok (Element c None (attr_element <$> attributes info)))
    end.
Proof.
  simpl. destruct (dict_get c classes) as [info|]; [|done].
  by rewrite fold_attributes.
Qed.

Lemma fold_child_step_err fuel classes l e :
  fold_left (child_step fuel classes) l (Err e) = Err e.
Proof. induction l; simpl; auto. Qed.

Lemma fold_child_step_ok fuel classes l tg tx ss t :
  fold_left (child_step fuel classes) l (Ok (Element tg tx ss)) = Ok t
  ↔ ∃ subtrees,
      Forall2 (λ child st,
          build_xml_structure fuel classes (child_name child) = Ok st)
        l subtrees
      ∧ t = Element tg tx (ss ++ subtrees).
Proof.
  revert ss. induction l as [|child l IH]; intros ss; cbn [fold_left].
  - split.
    + intros [= <-]. exists []. split; [constructor|]. by rewrite app_nil_r.
    + intros (subtrees & ->%Forall2_nil_inv_l & ->). by rewrite app_nil_r.
  - unfold child_step at 2; simpl.
    destruct (build_xml_structure fuel classes (child_name child))
      as [st|e] eqn:E; simpl.
    + rewrite IH. split.
      * intros (subtrees & Hall & ->). exists (st :: subtrees).
        split; [by constructor|]. by rewrite <- app_assoc.
      * intros (subtrees & Hall & ->).
        apply Forall2_cons_inv_l in Hall as (st' & subtrees' & Hst & Hall & ->).
        exists subtrees'. split; [done|].
        rewrite <- app_assoc. simpl. congruence.
    + rewrite fold_child_step_err. split; [done|].
      intros (subtrees & Hall & _).
      apply Forall2_cons_inv_l in Hall as (? & ? & ? & _). congruence.
Qed.

Lemma build_ok fuel classes c t :
  build_xml_structure (S fuel) classes c = Ok t
  ↔ ∃ info subtrees,
      dict_get c classes = Some info
      ∧ Forall2 (λ child st,
            build_xml_structure fuel classes (child_name child) = Ok st)
          (children info) subtrees
      ∧ t = Element c None ((attr_element <$> attributes info) ++ subtrees).
Proof.
  rewrite build_S. destruct (dict_get c classes) as [info|].
  - rewrite fold_child_step_ok. split.
    + intros (subtrees & ? & ?). by exists info, subtrees.
    + intros (info' & subtrees & [= <-] & ? & ?). by exists subtrees.
  - split; [done|]. by intros (? & ? & ? & _).
Qed.



Lemma reachable_snoc classes c c' info child :
  reachable classes c c' → dict_get c' classes = Some info →
  child ∈ children info → reachable classes c (child_name child).
Proof.
  induction 1 as [c|c info0 child0 c' Hget Hin Hreach IH]; intros Hc' Hchild.
  - eapply reach_step; [done..|]. constructor.
  - eapply reach_step; [done..|]. by apply IH.
Qed.

(** A successful build means every class met on the way was declared. *)
Lemma build_ok_reachable classes c c' :
  reachable classes c c' →
  ∀ fuel t, build_xml_structure fuel classes c = Ok t →
            is_Some (dict_get c' classes).
Proof.
  induction 1 as [c|c info child c' Hget Hin Hreach IH]; intros fuel t Hb.
  - destruct fuel as [|fuel]; [done|].
    apply build_ok in Hb as (info & _ & -> & _). eauto.
  - destruct fuel as [|fuel]; [done|].
    apply build_ok in Hb as (info' & subtrees & Hget' & Hall & _).
    simplify_eq.
    apply list_elem_of_lookup in Hin as [i Hi].
    destruct (Forall2_lookup_l _ _ _ _ _ Hall Hi) as (st & _ & Hst).
    by eapply IH.
Qed.




Lemma find_root_class_none classes :
  dict_wf classes → no_root classes → find_root_class classes = None.
Proof.
  intros Hwf Hno. unfold find_root_class.
  destruct (find _ classes) as [[c' info']|] eqn:E; [|done].
  apply find_some in E as [Hin Hr].
  apply bool_decide_eq_true in Hr. simpl in Hr.
  exfalso. apply (Hno c'). exists info'. split; [|done].
  apply dict_elem_of_get; [done|]. by apply list_elem_of_In.
Qed.

End render_facts.

(** * Facts about multiplicity strings *)
Section string_facts.
Implicit Types (s p : string) (c : ascii).

Lemma split_cons_dots rest :
  str_split_dotdot (String "." (String "." rest)) = "" :: str_split_dotdot rest.
Proof. done. Qed.

Lemma split_cons c rest :
  str_split_dotdot (String c rest)
  = let keep :=
      match str_split_dotdot rest with
      | piece :: pieces => String c piece :: pieces
      | [] => [String c ""]
      end in
    match rest with
    | String c' rest' =>
        if is_dot c && is_dot c' then "" :: str_split_dotdot rest' else keep
    | EmptyString => keep
    end.
Proof. by destruct rest. Qed.

Lemma split_nonempty s : str_split_dotdot s ≠ [].
Proof.
  destruct s as [|c rest]; [done|]. rewrite split_cons. cbv zeta.
  destruct (str_split_dotdot rest) as [|p ps];
    destruct rest as [|c' rest']; try done;
    by destruct (is_dot c && is_dot c').
Qed.

Lemma join_cons_char c p ps :
  str_join_dotdot (String c p :: ps) = String c (str_join_dotdot (p :: ps)).
Proof. by destruct ps. Qed.

Lemma is_dot_eq c : is_dot c = true → c = "."%char.
Proof. unfold is_dot. by intros ?%Ascii.eqb_eq. Qed.

Lemma split_keep c rest :
  (∀ c' rest', rest = String c' rest' → is_dot c && is_dot c' = false) →
  str_split_dotdot (String c rest)
  = match str_split_dotdot rest with
    | piece :: pieces => String c piece :: pieces
    | [] => [String c ""]
    end.
Proof.
  intros Hno. rewrite split_cons. destruct rest as [|c' rest']; [done|].
  cbv zeta. by rewrite (Hno c' rest').
Qed.

Lemma split_join_pair s :
  str_join_dotdot (str_split_dotdot s) = s
  ∧ ∀ c, str_join_dotdot (str_split_dotdot (String c s)) = String c s.
Proof.
  induction s as [|c0 s [IH1 IH2]].
  - by split.
  - split; [apply IH2|]. intros c.
    destruct (is_dot c && is_dot c0) eqn:E.
    + apply andb_true_iff in E as [->%is_dot_eq ->%is_dot_eq].
      rewrite split_cons_dots.
      destruct (str_split_dotdot s) as [|p ps] eqn:Es;
        [by apply split_nonempty in Es|].
      change (str_join_dotdot ("" :: p :: ps))
        with ("" +:+ ".." +:+ str_join_dotdot (p :: ps)).
      by rewrite IH1.
    + rewrite split_keep by (by intros ?? [= <- <-]).
      destruct (str_split_dotdot (String c0 s)) as [|p ps] eqn:Es;
        [by apply split_nonempty in Es|].
      rewrite join_cons_char. f_equal. rewrite <- Es. apply IH2.
Qed.

Lemma split_join s : str_join_dotdot (str_split_dotdot s) = s.
Proof. apply split_join_pair. Qed.

Lemma contains_cons c s :
  str_contains_dotdot (String c s)
  = match s with
    | String c' _ => (is_dot c && is_dot c') || str_contains_dotdot s
    | EmptyString => false
    end.
Proof. done. Qed.

Lemma split_pieces_first_pair s :
  pieces_first (str_split_dotdot s)
  ∧ ∀ c, pieces_first (str_split_dotdot (String c s)).
Proof.
  induction s as [|c0 s [IH1 IH2]].
  - split; [done|]. intros c. done.
  - split; [apply IH2|]. intros c.
    destruct (is_dot c && is_dot c0) eqn:E.
    + apply andb_true_iff in E as [->%is_dot_eq ->%is_dot_eq].
      rewrite split_cons_dots.
      destruct (str_split_dotdot s) as [|p ps] eqn:Es;
        [by apply split_nonempty in Es|].
      split; [done|exact IH1].
    + rewrite split_keep by (by intros ?? [= <- <-]).
      pose proof (split_join (String c0 s)) as Hj.
      specialize (IH2 c0).
      destruct (str_split_dotdot (String c0 s)) as [|p ps] eqn:Es;
        [by apply split_nonempty in Es|].
      destruct ps as [|p' ps].
      * simpl in Hj. subst p. simpl in IH2. cbn [pieces_first].
        rewrite contains_cons, E. exact IH2.
      * destruct IH2 as [Hp Hps]. split; [|exact Hps].
        cbn [str_join_dotdot] in Hj.
        destruct p as [|p0 p]; simpl in Hj.
        -- injection Hj as <- _. simpl. rewrite andb_true_r in E.
           by rewrite E.
        -- injection Hj as <- _.
           change (String c (String p0 p) +:+ ".")
             with (String c (String p0 (p +:+ "."))).
           rewrite contains_cons, E. exact Hp.
Qed.

Lemma split_pieces_first s : pieces_first (str_split_dotdot s).
Proof. apply split_pieces_first_pair. Qed.

(** A two-way split cuts the string at its first separator, and no
    separator is left in the second half. *)
Lemma split_two s min_s max_s :
  str_split_dotdot s = [min_s; max_s] →
  s = min_s +:+ ".." +:+ max_s
  ∧ str_contains_dotdot (min_s +:+ ".") = false
  ∧ str_contains_dotdot max_s = false.
Proof.
  intros Hs. pose proof (split_join s) as Hj.
  pose proof (split_pieces_first s) as Hp. rewrite Hs in Hj, Hp.
  simpl in Hj. destruct Hp as [H1 H2]. by split_and!.
Qed.

End string_facts.

(** * Facts about the metadata *)

Section meta_facts.
Implicit Types (c : option string) (a agg : aggregation_elem)
  (cm : dict (option string) multiplicity).

Lemma add_multiplicity_ok cm a cm' :
  add_multiplicity cm a = Ok cm'
  ↔ ∃ mu, multiplicity_of a = Some mu ∧ cm' = dict_set (agg_source a) mu cm.
Proof.
  unfold add_multiplicity, multiplicity_of.
  destruct (agg_sourceMultiplicity a) as [m|]; [|naive_solver].
  destruct (str_contains_dotdot m).
  - destruct (str_split_dotdot m) as [|mn [|mx [|? ?]]]; simpl; naive_solver.
  - simpl. naive_solver.
Qed.

Lemma fold_multiplicity_err aggs e :
  fold_left multiplicity_step aggs (Err e) = Err e.
Proof. induction aggs; simpl; auto. Qed.

Lemma fold_multiplicity_ok aggs cm0 cm :
  fold_left multiplicity_step aggs (Ok cm0) = Ok cm →
  Forall (λ a, is_Some (multiplicity_of a)) aggs
  ∧ ∀ c, dict_get c cm
         = match last_aggregation_of c aggs with
           | Some a => multiplicity_of a
           | None => dict_get c cm0
           end.
Proof.
  revert cm0. induction aggs as [|a aggs IH]; intros cm0; cbn [fold_left].
  - intros [= ->]. split; [constructor|done].
  - unfold multiplicity_step at 2; simpl.
    destruct (add_multiplicity cm0 a) as [cm1|e] eqn:E.
    + apply add_multiplicity_ok in E as (mu & Hmu & ->).
      intros [Hall Hget]%IH. split; [constructor; eauto|].
      intros c. rewrite Hget. unfold last_aggregation_of.
      destruct (decide (agg_source a = c)) as [Hc|Hc].
      * rewrite filter_cons_True by done. rewrite last_cons.
        destruct (last (filter _ aggs)); [done|].
        subst c. by rewrite dict_get_set_eq.
      * rewrite filter_cons_False by done.
        destruct (last (filter _ aggs)); [done|].
        by rewrite dict_get_set_ne.
    + by rewrite fold_multiplicity_err.
Qed.

Lemma fold_multiplicity_total aggs cm0 :
  Forall (λ a, is_Some (multiplicity_of a)) aggs →
  ∃ cm, fold_left multiplicity_step aggs (Ok cm0) = Ok cm.
Proof.
  intros Hall. revert cm0.
  induction Hall as [|a aggs [mu Hmu] _ IH]; intros cm0; simpl; [eauto|].
  assert (add_multiplicity cm0 a = Ok (dict_set (agg_source a) mu cm0)) as ->.
  { apply add_multiplicity_ok. eauto. }
  apply IH.
Qed.

Lemma fold_multiplicity_never_no_root aggs acc :
  acc ≠ Err NoRootFound →
  fold_left multiplicity_step aggs acc ≠ Err NoRootFound.
Proof.
  revert acc. induction aggs as [|a aggs IH]; intros acc Hacc; [done|].
  simpl. apply IH. destruct acc as [cm|e]; simpl; [|done].
  unfold add_multiplicity. destruct (agg_sourceMultiplicity a) as [m|]; [|done].
  destruct (str_contains_dotdot m); [|done].
  by destruct (str_split_dotdot m) as [|mn [|mx [|? ?]]].
Qed.

Lemma fold_entries cm (items : class_table) acc :
  fold_left (λ meta_data '(class_name, class_info),
      meta_data ++ [make_entry cm class_name class_info]) items acc
  = acc ++ ((λ item, make_entry cm item.1 item.2) <$> items).
Proof.
  revert acc. induction items as [|[c info] items IH]; intros acc; simpl.
  - by rewrite app_nil_r.
  - rewrite IH. by rewrite <- app_assoc.
Qed.

Lemma generate_meta_json_ok self entries :
  generate_meta_json self = Ok entries
  ↔ ∃ cm, build_class_multiplicity (findall_Aggregation (xml_content self))
          = Ok cm
          ∧ entries = (λ item, make_entry cm item.1 item.2) <$> classes self.
Proof.
  unfold generate_meta_json.
  destruct (build_class_multiplicity _) as [cm|e]; simpl.
  - rewrite fold_entries. naive_solver.
  - naive_solver.
Qed.

Lemma fold_parameters (cs : list child_ref) (ps : list parameter) :
  fold_left (λ ps child, ps ++ [Param (child_name child) (Some "class")]) cs ps
  = ps ++ ((λ child, Param (child_name child) (Some "class")) <$> cs).
Proof.
  revert ps. induction cs as [|ch cs IH]; intros ps; simpl.
  - by rewrite app_nil_r.
  - rewrite IH. by rewrite <- app_assoc.
Qed.

End meta_facts.

(** * Rendering: the root, the tree, dangling references *)

Section render_theorems.
Implicit Types (xml_content : document) (c : option string).


Lemma fold_child_step_err_inv fuel classes l acc e :
  fold_left (child_step fuel classes) l acc = Err e →
  acc = Err e
  ∨ ∃ child, child ∈ l
             ∧ build_xml_structure fuel classes (child_name child) = Err e.
Proof.
  revert acc. induction l as [|child l IH]; intros acc; simpl; [by left|].
  intros [Hacc|(child' & Hin & Hb)]%IH.
  - unfold child_step in Hacc. destruct acc as [el|e0]; simpl in Hacc.
    + destruct (build_xml_structure fuel classes (child_name child))
        as [st|e1] eqn:E; simpl in Hacc; [done|].
      injection Hacc as ->. right. exists child. split; [left|done].
    + by left.
  - right. exists child'. split; [by right|done].
Qed.

Lemma build_err_kind classes fuel c e :
  build_xml_structure fuel classes c = Err e →
  e = RecursionError ∨ ∃ k, e = KeyError k ∧ dict_get k classes = None.
Proof.
  revert c. induction fuel as [|fuel IH]; intros c.
  - intros [= <-]. by left.
  - rewrite build_S. destruct (dict_get c classes) as [info|] eqn:Hget.
    + intros [?|(child & _ & Hb)]%fold_child_step_err_inv; [done|].
      by eapply IH.
    + intros [= <-]. right. eauto.
Qed.


Lemma generate_config_xml_ok fuel self t :
  generate_config_xml fuel self = Ok t
  ↔ falsy (find_root_class (classes self)) = false
    ∧ build_xml_structure fuel (classes self) (find_root_class (classes self))
      = Ok t
    ∧ serializable t = true.
Proof.
  unfold generate_config_xml, tostring.
  destruct (falsy _); [split; [done|by intros [? _]]|].
  destruct (build_xml_structure _ _ _) as [t'|e]; simpl.
  - destruct (serializable t') eqn:Hs.
    + split; [by intros [= <-]|by intros (_ & [= <-] & _)].
    + split; [done|]. intros (_ & [= <-] & Hs'). congruence.
  - split; [done|by intros (_ & ? & _)].
Qed.

Lemma generate_config_xml_build_err fuel self e :
  falsy (find_root_class (classes self)) = false →
  build_xml_structure fuel (classes self) (find_root_class (classes self))
  = Err e →
  generate_config_xml fuel self = Err e.
Proof. intros Hf Hb. unfold generate_config_xml. by rewrite Hf, Hb. Qed.


(** C2 (amended): in a model without a root class, [generate_config_xml]
    raises the no-root error at every recursion depth, whereas
    [generate_meta_json] has no root check: it never raises that error, and
    when every multiplicity is present and splits in at most two parts it
    returns one entry per class, none of them a root. *)
Theorem no_root_render_fails xml_content :
  let self := XMLProcessor_init xml_content in
  no_root (classes self) →
  (∀ fuel, generate_config_xml fuel self = Err NoRootFound)
  ∧ generate_meta_json self ≠ Err NoRootFound
  ∧ (Forall (λ a, ∃ m, agg_sourceMultiplicity a = Some m
                       ∧ (str_contains_dotdot m = true →
                          length (str_split_dotdot m) = 2))
       (findall_Aggregation xml_content) →
     ∃ entries, generate_meta_json self = Ok entries
                ∧ entry_class <$> entries = dict_keys (classes self)
                ∧ Forall (λ e, entry_isRoot e = false) entries).
Proof.
  intros self Hno. split_and!.
  - intros fuel. unfold generate_config_xml.
    rewrite find_root_class_none; [done|apply parse_wf|done].
  - unfold generate_meta_json.
    pose proof (fold_multiplicity_never_no_root
                  (findall_Aggregation xml_content) (Ok [])) as Hne.
    unfold build_class_multiplicity.
    change (λ acc agg, class_multiplicity ← acc;
                       add_multiplicity class_multiplicity agg)
      with multiplicity_step.
    destruct (fold_left multiplicity_step _ _) as [cm|e]; simpl; [done|].
    intros [= ->]. by apply Hne.
  - intros Hall.
    destruct (fold_multiplicity_total (findall_Aggregation xml_content) [])
      as [cm Hcm].
    { eapply Forall_impl; [exact Hall|]. intros a (m & Hm & Hsplit).
      unfold multiplicity_of. rewrite Hm.
      destruct (str_contains_dotdot m); [|eauto].
      destruct (str_split_dotdot m) as [|mn [|mx [|? ?]]];
        simpl in Hsplit; try (specialize (Hsplit eq_refl); lia). eauto. }
    exists ((λ item, make_entry cm item.1 item.2) <$> classes self).
    split_and!.
    + apply generate_meta_json_ok. by exists cm.
    + rewrite <- list_fmap_compose. done.
    + apply Forall_fmap, Forall_forall. intros [c info] Hin. simpl.
      destruct (isRoot info) eqn:Hr; [|done].
      exfalso. apply (Hno c). exists info. split; [|done].
      apply dict_elem_of_get; [apply parse_wf|done].
Qed.


(** C9: when an aggregation targets a declared class reachable from the
    root and its source is no declared class, [generate_config_xml]
    returns no tree at any recursion depth; the lookup of the source name
    raises [KeyError]. *)
Theorem render_dangling_source xml_content (a : aggregation_elem) :
  let self := XMLProcessor_init xml_content in
  a ∈ findall_Aggregation xml_content →
  is_Some (dict_get (agg_target a) (classes self)) →
  reachable (classes self) (find_root_class (classes self)) (agg_target a) →
  agg_source a ∉ cls_name <$> findall_Class xml_content →
  (∀ fuel, ∃ e,
      generate_config_xml fuel self = Err e
      ∧ (e = NoRootFound ∨ e = RecursionError
         ∨ ∃ k, e = KeyError k ∧ dict_get k (classes self) = None))
  ∧ (∀ fuel, build_xml_structure (S fuel) (classes self) (agg_source a)
             = Err (KeyError (agg_source a))).
Proof.
  intros self Hin [info Hget] Hreach Hsrc.
  assert (dict_get (agg_source a) (classes self) = None) as Hnone.
  { destruct (dict_get (agg_source a) (classes self)) eqn:E; [|done].
    exfalso. apply Hsrc, parse_known. eauto. }
  split.
  - intros fuel.
    destruct (falsy (find_root_class (classes self))) eqn:Hf.
    { exists NoRootFound. unfold generate_config_xml. rewrite Hf. eauto. }
    destruct (build_xml_structure fuel (classes self)
                (find_root_class (classes self))) as [t|e] eqn:Hb.
    + exfalso.
      assert (reachable (classes self) (find_root_class (classes self))
                (child_name (child_of a))) as Hreach'.
      { eapply reachable_snoc; [done..|].
        rewrite (parse_children _ _ _ Hget).
        apply list_elem_of_fmap. exists a. split; [done|].
        by apply list_elem_of_filter. }
      destruct (build_ok_reachable _ _ _ Hreach' _ _ Hb) as [? Hdecl].
      change (agg_source a) with (child_name (child_of a)) in Hnone.
      congruence.
    + exists e. split; [by apply generate_config_xml_build_err|].
      right. by eapply build_err_kind.
  - intros fuel. rewrite build_S. by rewrite Hnone.
Qed.


(** The metadata half of C2 as first stated fails on [rootless_doc]: no
    class is a root, and [generate_meta_json] returns its entries. *)
Lemma no_root_meta_counterexample :
  let self := XMLProcessor_init rootless_doc in
  no_root (classes self)
  ∧ generate_meta_json self
    = Ok [ MetaEntry (Some "A") "first" false None None
             [Param (Some "B") (Some "class")];
           MetaEntry (Some "B") "" false (Some "*") (Some "1")
             [Param (Some "y") (Some "str")] ]
  ∧ generate_meta_json self ≠ Err NoRootFound.
Proof.
  split_and!.
  - intros c (info & Hget & Hroot). revert Hget. vm_compute classes. simpl.
    repeat (case_decide; [intros [= <-]; done|]). done.
  - by vm_compute.
  - by vm_compute.
Qed.

End render_theorems.

(** * Metadata: cardinalities *)

Section meta_theorems.
Implicit Types (c : option string) (a agg : aggregation_elem)
  (cm : dict (option string) multiplicity).

Lemma make_entry_fields cm c info :
  let e := make_entry cm c info in
  entry_class e = c ∧ entry_isRoot e = isRoot info
  ∧ entry_documentation e = documentation info
  ∧ entry_min e = (if isRoot info then None else mult_min <$> dict_get c cm)
  ∧ entry_max e = (if isRoot info then None else mult_max <$> dict_get c cm)
  ∧ entry_parameters e
    = ((λ attr, Param (attr_name attr) (attr_type attr)) <$> attributes info)
      ++ ((λ child, Param (child_name child) (Some "class")) <$> children info).
Proof.
  unfold make_entry; simpl. rewrite fold_parameters. split_and!; try done.
  - unfold dict_in. destruct (dict_get c cm), (isRoot info); done.
  - unfold dict_in. destruct (dict_get c cm), (isRoot info); done.
Qed.

(** The entries of a successful [generate_meta_json], one per class in
    table order, with the cardinality read from the last aggregation of
    that source. *)
Lemma meta_entries self entries :
  generate_meta_json self = Ok entries →
  let aggs := findall_Aggregation (xml_content self) in
  Forall (λ a, is_Some (multiplicity_of a)) aggs
  ∧ Forall2 (λ item e,
        entry_class e = item.1 ∧ entry_isRoot e = isRoot item.2
        ∧ entry_min e
          = (if isRoot item.2 then None
             else mult_min <$> (last_aggregation_of item.1 aggs
                                ≫= multiplicity_of))
        ∧ entry_max e
          = (if isRoot item.2 then None
             else mult_max <$> (last_aggregation_of item.1 aggs
                                ≫= multiplicity_of)))
      (classes self) entries.
Proof.
  intros (cm & Hcm & ->)%generate_meta_json_ok aggs.
  apply fold_multiplicity_ok in Hcm as [Hall Hget]. split; [done|].
  apply Forall2_fmap_r, Forall_Forall2_diag, Forall_forall.
  intros [c info] _. unfold compose. cbn [fst snd].
  destruct (make_entry_fields cm c info) as (-> & -> & _ & -> & -> & _).
  rewrite Hget. fold aggs.
  split_and!; try done; by destruct (last_aggregation_of c aggs).
Qed.

Lemma last_aggregation_of_None c aggs :
  (∀ a, a ∈ aggs → agg_source a ≠ c) → last_aggregation_of c aggs = None.
Proof.
  intros Hno. unfold last_aggregation_of. apply last_None.
  destruct (filter _ aggs) as [|a l] eqn:E; [done|].
  assert (a ∈ filter (λ a, agg_source a = c) aggs)
    as [Hc Hin]%list_elem_of_filter by (rewrite E; left).
  by apply Hno in Hin.
Qed.

Lemma last_aggregation_of_Some c aggs a :
  last_aggregation_of c aggs = Some a → a ∈ aggs ∧ agg_source a = c.
Proof.
  intros Hin%last_Some_elem_of.
  apply list_elem_of_filter in Hin. tauto.
Qed.

Lemma last_aggregation_of_is_Some c aggs :
  (∃ a, a ∈ aggs ∧ agg_source a = c) → is_Some (last_aggregation_of c aggs).
Proof.
  intros (a & Hin & Hc). apply last_is_Some. intros Hnil.
  eapply (filter_nil_not_elem_of _ _ a); [exact Hnil|exact Hc|exact Hin].
Qed.

(** C6: in the output of [generate_meta_json], the entry of a root class
    has no min/max, the entry of a class that no aggregation names as
    source has none, and the entry of a non-root class named as source has
    both: the two halves of a multiplicity cut at its separator, or the
    whole multiplicity twice when it has no separator. *)
Theorem meta_min_max self entries :
  generate_meta_json self = Ok entries →
  let aggs := findall_Aggregation (xml_content self) in
  Forall2 (λ item e,
      entry_class e = item.1
      ∧ (isRoot item.2 = true → entry_min e = None ∧ entry_max e = None)
      ∧ ((∀ a, a ∈ aggs → agg_source a ≠ item.1) →
         entry_min e = None ∧ entry_max e = None)
      ∧ (isRoot item.2 = false →
         (∃ a, a ∈ aggs ∧ agg_source a = item.1) →
         ∃ a m min_s max_s,
           a ∈ aggs ∧ agg_source a = item.1
           ∧ agg_sourceMultiplicity a = Some m
           ∧ entry_min e = Some min_s ∧ entry_max e = Some max_s
           ∧ if str_contains_dotdot m
             then m = min_s +:+ ".." +:+ max_s
                  ∧ str_contains_dotdot (min_s +:+ ".") = false
                  ∧ str_contains_dotdot max_s = false
             else min_s = m ∧ max_s = m))
    (classes self) entries.
Proof.
  intros [Hall Hent]%meta_entries aggs. fold aggs in Hall, Hent.
  eapply Forall2_impl; [exact Hent|].
  intros [c info] e (Hc & _ & Hmin & Hmax); simpl in *. split_and!.
  - done.
  - intros Hr. by rewrite Hr in Hmin, Hmax.
  - intros Hno. rewrite last_aggregation_of_None in Hmin, Hmax by done.
    by destruct (isRoot info).
  - intros Hr Hsrc. rewrite Hr in Hmin, Hmax.
    apply last_aggregation_of_is_Some in Hsrc as [a Ha].
    rewrite Ha in Hmin, Hmax. simpl in Hmin, Hmax.
    apply last_aggregation_of_Some in Ha as [Hin Hsrc].
    assert (is_Some (multiplicity_of a)) as [mu Hmu].
    { by eapply Forall_forall in Hall. }
    rewrite Hmu in Hmin, Hmax. simpl in Hmin, Hmax.
    unfold multiplicity_of in Hmu.
    destruct (agg_sourceMultiplicity a) as [m|] eqn:Hm; [|done].
    exists a, m, (mult_min mu), (mult_max mu).
    split_and!; try done.
    destruct (str_contains_dotdot m).
    + destruct (str_split_dotdot m) as [|mn [|mx [|? ?]]] eqn:Hs; try done.
      injection Hmu as <-. simpl. by apply split_two.
    + by injection Hmu as <-.
Qed.

End meta_theorems.

Section retarget.
Implicit Types (c : option string) (a agg : aggregation_elem)
  (classes : class_table).

Lemma same_but_targets_classes xml xml' :
  same_but_targets xml xml' → findall_Class xml = findall_Class xml'.
Proof.
  induction 1 as [|e e' xml xml' He _ IH]; [done|].
  unfold findall_Class in *. csimpl. rewrite IH.
  destruct e, e'; try done; by simplify_eq.
Qed.

Lemma same_but_targets_aggregations xml xml' :
  same_but_targets xml xml' →
  Forall2 (λ a a', agg_source a = agg_source a'
                   ∧ agg_sourceMultiplicity a = agg_sourceMultiplicity a')
    (findall_Aggregation xml) (findall_Aggregation xml').
Proof.
  induction 1 as [|e e' xml xml' He _ IH]; [constructor|].
  unfold findall_Aggregation in *. csimpl.
  destruct e, e'; try done; by constructor.
Qed.

Lemma fold_multiplicity_retarget aggs aggs' acc :
  Forall2 (λ a a', agg_source a = agg_source a'
                   ∧ agg_sourceMultiplicity a = agg_sourceMultiplicity a')
    aggs aggs' →
  fold_left multiplicity_step aggs acc = fold_left multiplicity_step aggs' acc.
Proof.
  intros Hall. revert acc.
  induction Hall as [|a a' aggs aggs' [Hs Hm] _ IH]; intros acc; [done|].
  simpl. rewrite IH. f_equal. destruct acc as [cm|e]; [|done]. simpl.
  unfold add_multiplicity. by rewrite Hs, Hm.
Qed.

Lemma skeleton_set classes c info info' :
  dict_get c classes = Some info → isRoot info' = isRoot info →
  skeleton (dict_set c info' classes) = skeleton classes.
Proof.
  unfold skeleton. intros Hget Hr.
  induction classes as [|[c0 info0] classes IH]; [done|].
  simpl in *. case_decide; simplify_eq.
  - rewrite !fmap_cons. simpl. by rewrite Hr.
  - rewrite !fmap_cons. by rewrite IH.
Qed.

Lemma skeleton_add_aggregation classes a :
  skeleton (add_aggregation classes a) = skeleton classes.
Proof.
  unfold add_aggregation.
  destruct (dict_get (agg_target a) classes) as [info|] eqn:E; [|done].
  by eapply skeleton_set.
Qed.

Lemma skeleton_fold_add_aggregation classes aggs :
  skeleton (fold_left add_aggregation aggs classes) = skeleton classes.
Proof.
  revert classes. induction aggs as [|a aggs IH]; intros classes; [done|].
  simpl. by rewrite IH, skeleton_add_aggregation.
Qed.

Lemma skeleton_retarget xml xml' :
  same_but_targets xml xml' →
  skeleton (_parse_xml_classes xml) = skeleton (_parse_xml_classes xml').
Proof.
  intros Hsame. unfold _parse_xml_classes.
  rewrite !skeleton_fold_add_aggregation.
  by rewrite (same_but_targets_classes _ _ Hsame).
Qed.

Lemma cardinality_view_entries cm classes :
  cardinality_view <$> ((λ item, make_entry cm item.1 item.2) <$> classes)
  = (λ cr, cardinality_view (make_entry cm cr.1 (ClassInfo cr.2 "" [] [])))
      <$> skeleton classes.
Proof.
  unfold skeleton. rewrite <- !list_fmap_compose.
  apply list_fmap_ext. intros _ [c info] _. unfold compose; simpl.
  unfold cardinality_view.
  destruct (make_entry_fields cm c info) as (-> & -> & _ & -> & -> & _).
  destruct (make_entry_fields cm c (ClassInfo (isRoot info) "" [] []))
    as (-> & -> & _ & -> & -> & _).
  done.
Qed.

Lemma build_class_multiplicity_retarget xml xml' :
  same_but_targets xml xml' →
  build_class_multiplicity (findall_Aggregation xml)
  = build_class_multiplicity (findall_Aggregation xml').
Proof.
  intros Hsame.
  apply (fold_multiplicity_retarget _ _ (Ok [])).
  by apply same_but_targets_aggregations.
Qed.

Lemma generate_meta_json_err self e :
  generate_meta_json self = Err e
  ↔ build_class_multiplicity (findall_Aggregation (xml_content self)) = Err e.
Proof.
  unfold generate_meta_json.
  destruct (build_class_multiplicity _) as [cm|e']; simpl;
    split; intros [=]; by subst.
Qed.

(** C10: the min/max of a non-root class come from the last aggregation,
    in document order, whose source is that class; the targets of the
    aggregations play no part: changing them changes neither the outcome
    of [generate_meta_json] nor any class, isRoot, min or max field.  In
    [stray_target_doc] the cardinality of [C] is the one of the
    aggregation whose target is no class, which gave no child to
    anything. *)
Theorem meta_last_aggregation :
  (∀ self entries,
     generate_meta_json self = Ok entries →
     let aggs := findall_Aggregation (xml_content self) in
     Forall2 (λ item e,
         isRoot item.2 = false →
         entry_min e
         = mult_min <$> (last_aggregation_of item.1 aggs ≫= multiplicity_of)
         ∧ entry_max e
           = mult_max <$> (last_aggregation_of item.1 aggs ≫= multiplicity_of))
       (classes self) entries)
  ∧ (∀ xml xml',
       same_but_targets xml xml' →
       match generate_meta_json (XMLProcessor_init xml),
             generate_meta_json (XMLProcessor_init xml') with
       | Ok entries, Ok entries' =>
           cardinality_view <$> entries = cardinality_view <$> entries'
       | Err e, Err e' => e = e'
       | _, _ => False
       end)
  ∧ generate_meta_json (XMLProcessor_init stray_target_doc)
    = Ok [ MetaEntry (Some "R") "" true None None
             [Param (Some "C") (Some "class")];
           MetaEntry (Some "C") "" false (Some "7") (Some "2")
             [Param (Some "x") (Some "int")] ].
Proof.
  split_and!.
  - intros self entries [_ Hent]%meta_entries aggs.
    eapply Forall2_impl; [exact Hent|].
    intros [c info] e (_ & _ & Hmin & Hmax) Hr; simpl in *.
    by rewrite Hr in Hmin, Hmax.
  - intros xml xml' Hsame.
    pose proof (build_class_multiplicity_retarget _ _ Hsame) as Hcm.
    pose proof (skeleton_retarget _ _ Hsame) as Hsk.
    destruct (generate_meta_json (XMLProcessor_init xml)) as [es|e] eqn:E1;
      destruct (generate_meta_json (XMLProcessor_init xml')) as [es'|e'] eqn:E2.
    + apply generate_meta_json_ok in E1 as (cm & Hb & ->).
      apply generate_meta_json_ok in E2 as (cm' & Hb' & ->).
      simpl in Hb, Hb'. assert (cm = cm') as <- by congruence.
      rewrite !cardinality_view_entries. simpl. by rewrite Hsk.
    + apply generate_meta_json_ok in E1 as (cm & Hb & ->).
      apply generate_meta_json_err in E2. simpl in Hb, E2. congruence.
    + apply generate_meta_json_ok in E2 as (cm & Hb & ->).
      apply generate_meta_json_err in E1. simpl in Hb, E1. congruence.
    + apply generate_meta_json_err in E1, E2. simpl in E1, E2. congruence.
  - by vm_compute.
Qed.

End retarget.

(** * The theorems at concrete inputs *)

Lemma json_eq_refl (v : json) : json_eq v v = true.
Proof. destruct v; simpl; try done; by apply bool_decide_eq_true. Qed.

Lemma example_base_wf : dict_wf example_base.
Proof. apply (bool_decide_unpack _). by vm_compute. Qed.

Lemma example_patched_wf : dict_wf example_patched.
Proof. apply (bool_decide_unpack _). by vm_compute. Qed.


Lemma example_base_values_reflexive :
  ∀ k v, dict_get k example_base = Some v → json_eq v v = true.
Proof. intros k v _. apply json_eq_refl. Qed.

Lemma generate_spec_witness :
  dict_wf example_base ∧ dict_wf example_patched
  ∧ deletions (ConfigDeltaProcessor.generate json_eq example_base example_patched)
    = filter (λ k, dict_get k example_patched = None) (dict_keys example_base)
  ∧ ConfigDeltaProcessor.generate json_eq example_base example_base
    = Delta [] [] [].
Proof.
  split; [exact example_base_wf|].
  split; [exact example_patched_wf|].
  pose proof (generate_spec json_eq example_base example_patched
                example_base_wf example_patched_wf) as H.
  split; [exact (proj1 (proj2 H))|].
  exact (proj2 (proj2 (proj2 (proj2 (proj2 (proj2 (proj2 (proj2 H)))))))
           example_base_values_reflexive).
Defined.

Lemma apply_order_witness :
  "a" ∈ ["a"]
  ∧ dict_get "a"
      (ConfigDeltaProcessor.apply example_base
         (Delta [Addition "a" (JInt 9)] ["a"] [Update "a" (JInt 1) (JInt 5)]))
    = Some (JInt 9).
Proof.
  split; [left|].
  apply (proj1 (proj2 (apply_order example_base
           (Delta [Addition "a" (JInt 9)] ["a"] [Update "a" (JInt 1) (JInt 5)])))
           "a" (JInt 9)).
  - left.
  - reflexivity.
Defined.

Lemma example_heap_lookup : example_heap !! 1%positive = Some example_base.
Proof. apply lookup_singleton_eq. Qed.

Lemma apply_preserves_base_witness :
  example_heap !! 1%positive = Some example_base
  ∧ ∃ h' result,
      ConfigDeltaProcessor.apply_heap example_heap 1%positive
        (ConfigDeltaProcessor.generate json_eq example_base example_patched)
      = Some (h', result)
      ∧ h' !! 1%positive = Some example_base
      ∧ h' !! result = Some example_patched.
Proof.
  split; [exact example_heap_lookup|].
  destruct (apply_preserves_base example_heap 1%positive example_base
              (ConfigDeltaProcessor.generate json_eq example_base
                 example_patched) example_heap_lookup)
    as (h' & result & Hrun & _ & _ & Hbase & _ & Hres).
  exists h', result. split; [exact Hrun|]. split; [exact Hbase|exact Hres].
Defined.

Lemma rootless_no_root : no_root (classes (XMLProcessor_init rootless_doc)).
Proof.
  intros c (info & Hget & Hroot). revert Hget. vm_compute classes. simpl.
  repeat (case_decide; [intros [= <-]; done|]). done.
Qed.

Lemma no_root_render_fails_witness :
  no_root (classes (XMLProcessor_init rootless_doc))
  ∧ ∀ fuel,
      generate_config_xml fuel (XMLProcessor_init rootless_doc)
      = Err NoRootFound.
Proof.
  split; [exact rootless_no_root|].
  exact (proj1 (no_root_render_fails rootless_doc rootless_no_root)).
Defined.








Lemma scenario_meta_ok :
  generate_meta_json (XMLProcessor_init scenario_doc) = Ok scenario_entries.
Proof. by vm_compute. Qed.

Lemma meta_min_max_witness :
  generate_meta_json (XMLProcessor_init scenario_doc) = Ok scenario_entries
  ∧ Forall2 (λ item e,
        entry_class e = item.1
        ∧ (isRoot item.2 = true → entry_min e = None ∧ entry_max e = None))
      (classes (XMLProcessor_init scenario_doc)) scenario_entries.
Proof.
  split; [exact scenario_meta_ok|].
  eapply Forall2_impl.
  - exact (meta_min_max (XMLProcessor_init scenario_doc) scenario_entries
             scenario_meta_ok).
  - intros item e H. split; [exact (proj1 H)|exact (proj1 (proj2 H))].
Defined.

Lemma stray_target_unknown :
  agg_target stray_aggregation ∉ cls_name <$> findall_Class stray_target_doc.
Proof. apply (bool_decide_unpack _). by vm_compute. Qed.

Lemma stray_target_split :
  stray_target_doc
  = [ EClass (ClassElem (Some "R") (Some "true") None []);
      EClass (ClassElem (Some "C") (Some "false") None
                [AttributeElem (Some "x") (Some "int")]);
      EAggregation (AggregationElem (Some "C") (Some "R") (Some "0..5")) ]
    ++ EAggregation stray_aggregation :: [].
Proof. done. Qed.

Lemma scenario_split :
  scenario_doc
  = [ EClass (ClassElem (Some "R") (Some "true") None []);
      EClass (ClassElem (Some "C") (Some "false") None
                [AttributeElem (Some "x") (Some "int")]) ]
    ++ EAggregation (AggregationElem (Some "C") (Some "R") (Some "0..5")) :: [].
Proof. done. Qed.

Lemma scenario_declares_R : declares scenario_doc (Some "R").
Proof.
  exists (ClassElem (Some "R") (Some "true") None []). split; [left|done].
Qed.

Lemma stray_target_undeclared :
  ¬ declares stray_target_doc (agg_target stray_aggregation).
Proof.
  intros (e & Hin & Hname). revert Hin. unfold stray_target_doc.
  rewrite !elem_of_cons, elem_of_nil.
  intros [Heq|[Heq|[Heq|[Heq|[]]]]]; by simplify_eq.
Qed.

Lemma parse_aggregations_witness :
  declares scenario_doc (Some "R")
  ∧ (∃ info,
       dict_get (Some "R") (_parse_xml_classes scenario_doc) = Some info
       ∧ children info = [ChildRef (Some "C") (Some "0..5")])
  ∧ ¬ declares stray_target_doc (agg_target stray_aggregation)
  ∧ _parse_xml_classes stray_target_doc = _parse_xml_classes scenario_doc.
Proof.
  split; [exact scenario_declares_R|].
  split.
  { exact (proj1 (proj2 (proj2 (parse_aggregations scenario_doc))) _ []
             (AggregationElem (Some "C") (Some "R") (Some "0..5"))
             scenario_split scenario_declares_R). }
  split; [exact stray_target_undeclared|].
  exact (proj2 (proj2 (proj2 (parse_aggregations stray_target_doc))) _ []
           stray_aggregation stray_target_split stray_target_undeclared).
Defined.

Lemma dangling_in : dangling_aggregation ∈ findall_Aggregation dangling_doc.
Proof. left. Qed.

Lemma dangling_target_declared :
  is_Some (dict_get (agg_target dangling_aggregation)
             (classes (XMLProcessor_init dangling_doc))).
Proof. eexists. by vm_compute. Qed.

Lemma dangling_target_reachable :
  reachable (classes (XMLProcessor_init dangling_doc))
    (find_root_class (classes (XMLProcessor_init dangling_doc)))
    (agg_target dangling_aggregation).
Proof. exact (reach_refl _ (Some "R")). Qed.

Lemma dangling_source_unknown :
  agg_source dangling_aggregation ∉ cls_name <$> findall_Class dangling_doc.
Proof. apply (bool_decide_unpack _). by vm_compute. Qed.

Lemma render_dangling_source_witness :
  dangling_aggregation ∈ findall_Aggregation dangling_doc
  ∧ (agg_source dangling_aggregation ∉ cls_name <$> findall_Class dangling_doc)
  ∧ ∀ fuel, ∃ e,
      generate_config_xml fuel (XMLProcessor_init dangling_doc) = Err e.
Proof.
  split; [exact dangling_in|].
  split; [exact dangling_source_unknown|].
  intros fuel.
  destruct (proj1 (render_dangling_source dangling_doc dangling_aggregation
                     dangling_in dangling_target_declared
                     dangling_target_reachable dangling_source_unknown) fuel)
    as (e & He & _).
  exists e. exact He.
Defined.

Lemma retargeted_same : same_but_targets stray_target_doc retargeted_doc.
Proof. repeat constructor. Qed.

Lemma meta_last_aggregation_witness :
  same_but_targets stray_target_doc retargeted_doc
  ∧ match generate_meta_json (XMLProcessor_init stray_target_doc),
          generate_meta_json (XMLProcessor_init retargeted_doc) with
    | Ok entries, Ok entries' =>
        cardinality_view <$> entries = cardinality_view <$> entries'
    | Err e, Err e' => e = e'
    | _, _ => False
    end.
Proof.
  split; [exact retargeted_same|].
  exact (proj1 (proj2 meta_last_aggregation) stray_target_doc retargeted_doc
           retargeted_same).
Defined.

(** * More on the delta engine *)
Section delta_more.
Context {V : Type} (py_eq : V → V → bool).
Import ConfigDeltaProcessor.
Local Arguments generate : simpl never.

Implicit Types (d base patched : dict string V) (k key : string).

Lemma dict_eq_same_items (a b : dict string V) :
  dict_wf a → dict_wf b →
  dict_eq py_eq a b = true ↔ same_items py_eq a b.
Proof.
  intros Ha Hb. unfold dict_eq. rewrite andb_true_iff, bool_decide_eq_true.
  rewrite forallb_forall. split.
  - intros [Hlen Hall].
    assert (∀ k v, dict_get k a = Some v →
              ∃ v', dict_get k b = Some v' ∧ py_eq v v' = true) as Hab.
    { intros k v Hk%dict_get_elem_of%list_elem_of_In. apply Hall in Hk.
      destruct (dict_get k b) as [v'|]; [eauto|done]. }
    assert (dict_keys a ≡ₚ dict_keys b) as Hperm.
    { apply submseteq_length_Permutation.
      - apply NoDup_submseteq; [done|]. intros k Hk.
        apply dict_get_is_Some in Hk as [v Hv].
        apply dict_get_is_Some. destruct (Hab _ _ Hv) as (v' & -> & _). eauto.
      - unfold dict_keys. rewrite !length_fmap. lia. }
    intros k. destruct (dict_get k a) as [v|] eqn:Eka.
    + by destruct (Hab _ _ Eka) as (v' & -> & ?).
    + destruct (dict_get k b) as [v'|] eqn:Ekb; [|done].
      apply dict_get_None in Eka. apply Eka. rewrite Hperm.
      apply dict_get_is_Some. eauto.
  - intros Hsame. split.
    + apply dict_wf_same_keys_length; [done..|]. intros k.
      specialize (Hsame k).
      destruct (dict_get k a), (dict_get k b); try done;
        split; intros [? ?]; eauto; done.
    + intros [k v] Hin%list_elem_of_In.
      apply dict_elem_of_get in Hin; [|done]. specialize (Hsame k).
      rewrite Hin in Hsame. by destruct (dict_get k b).
Qed.

(** X1: the delta is empty exactly when the two dictionaries have the
    same keys and the two values at every key are [==].  Where every value
    is [==] to itself, that is: exactly when the two dictionaries are equal
    under Python's [==]. *)
Theorem generate_empty_iff_equal base patched :
  dict_wf base → dict_wf patched →
  (generate py_eq base patched = Delta [] [] [] ↔ same_items py_eq base patched)
  ∧ ((∀ v, py_eq v v = true) →
     (generate py_eq base patched = Delta [] [] []
      ↔ dict_eq py_eq base patched = true)).
Proof.
  intros Hb Hp.
  assert (generate py_eq base patched = Delta [] [] []
          ↔ same_items py_eq base patched) as Hiff; last first.
  { split; [done|]. intros _. by rewrite dict_eq_same_items. }
  split.
  - intros Hgen k.
    destruct (dict_get k base) as [v|] eqn:Eb;
      destruct (dict_get k patched) as [v'|] eqn:Ep; try done.
    + destruct (py_eq v v') eqn:Heq; [done|].
      assert (Update k v v' ∈ updates (generate py_eq base patched)) as Hin
        by (by apply elem_of_updates).
      rewrite Hgen in Hin. by apply elem_of_nil in Hin.
    + assert (k ∈ deletions (generate py_eq base patched)) as Hin
        by (apply elem_of_deletions; eauto).
      rewrite Hgen in Hin. by apply elem_of_nil in Hin.
    + assert (Addition k v' ∈ additions (generate py_eq base patched)) as Hin
        by (by apply elem_of_additions).
      rewrite Hgen in Hin. by apply elem_of_nil in Hin.
  - intros Hsame.
    assert (additions (generate py_eq base patched) = []) as Ha.
    { apply elem_of_nil_inv. intros [k v] [Hkp Hkb]%elem_of_additions; [|done].
      specialize (Hsame k). by rewrite Hkp, Hkb in Hsame. }
    assert (deletions (generate py_eq base patched) = []) as Hd.
    { apply elem_of_nil_inv. intros k [[v Hkb] Hkp]%elem_of_deletions.
      specialize (Hsame k). by rewrite Hkp, Hkb in Hsame. }
    assert (updates (generate py_eq base patched) = []) as Hu.
    { apply elem_of_nil_inv.
      intros [k from to] (Hkb & Hkp & Hne)%elem_of_updates; [|done].
      specialize (Hsame k). rewrite Hkp, Hkb in Hsame. congruence. }
    destruct (generate py_eq base patched); simpl in *. by subst.
Qed.

(** X2: every key occurs in at most one of the three lists of a generated
    delta, and at most once there. *)
Theorem generate_keys_disjoint base patched :
  dict_wf base → dict_wf patched →
  let dl := generate py_eq base patched in
  NoDup ((a_key <$> additions dl) ++ deletions dl ++ (u_key <$> updates dl)).
Proof.
  intros Hb Hp dl. subst dl. apply NoDup_app. split_and!.
  - by apply additions_keys_NoDup.
  - intros k (a & -> & Ha)%list_elem_of_fmap. destruct a as [k v].
    apply elem_of_additions in Ha as [_ Hkb]; [|done]. cbn [a_key].
    intros [Hd|Hu]%elem_of_app.
    + apply elem_of_deletions in Hd as [[? ?] _]. congruence.
    + apply list_elem_of_fmap in Hu as (u & Hk & Hu). destruct u as [k' from to].
      apply elem_of_updates in Hu as (? & _); [|done]. simpl in *. congruence.
  - apply NoDup_app. split_and!.
    + by apply deletions_NoDup.
    + intros k [_ Hkp]%elem_of_deletions (u & Hk & Hu)%list_elem_of_fmap.
      destruct u as [k' from to].
      apply elem_of_updates in Hu as (_ & ? & _); [|done]. simpl in *.
      congruence.
    + by apply updates_keys_NoDup.
Qed.

Lemma filter_fmap_fst (P : string → Prop) `{∀ k, Decision (P k)}
    (l : list (string * V)) :
  filter P (l.*1) = (filter (λ kv, P kv.1) l).*1.
Proof.
  induction l as [|[k v] l IH]; [done|].
  rewrite fmap_cons. cbn [fst]. destruct (decide (P k)).
  - rewrite !filter_cons_True by done. by rewrite fmap_cons, IH.
  - by rewrite !filter_cons_False by done.
Qed.

(** X3: the delta of the opposite direction.  What one direction adds
    the other deletes, in the same order, and the additions of the
    opposite direction carry the values of [base]; with a symmetric [==],
    the updates are the same keys with [from] and [to] exchanged. *)
Theorem generate_reverse base patched :
  dict_wf base → dict_wf patched →
  (∀ x y, py_eq x y = py_eq y x) →
  deletions (generate py_eq patched base)
  = a_key <$> additions (generate py_eq base patched)
  ∧ a_key <$> additions (generate py_eq patched base)
    = deletions (generate py_eq base patched)
  ∧ (∀ k v, Addition k v ∈ additions (generate py_eq patched base)
            → dict_get k base = Some v)
  ∧ (∀ k x y, Update k x y ∈ updates (generate py_eq base patched)
              ↔ Update k y x ∈ updates (generate py_eq patched base)).
Proof.
  intros Hb Hp Hsym. split_and!.
  - rewrite generate_deletions, generate_additions, <- list_fmap_compose.
    unfold dict_keys.
    rewrite (filter_fmap_fst (λ k, negb (dict_in k base) = true)).
    by apply list_fmap_ext; intros _ [? ?] _.
  - rewrite generate_deletions, generate_additions, <- list_fmap_compose.
    unfold dict_keys.
    rewrite (filter_fmap_fst (λ k, negb (dict_in k patched) = true)).
    by apply list_fmap_ext; intros _ [? ?] _.
  - intros k v Hin. by apply elem_of_additions in Hin as [? _].
  - intros k x y. rewrite !elem_of_updates by done.
    rewrite (Hsym y x). tauto.
Qed.

(** X4: applying a delta a second time changes nothing, key by key. *)
Theorem apply_idempotent base (dl : delta V) k :
  dict_get k (apply (apply base dl) dl) = dict_get k (apply base dl).
Proof.
  rewrite (get_apply k (apply base dl)), (get_apply k base).
  destruct (last_addition k (additions dl)); [done|].
  case_decide; [done|].
  destruct (dict_get k base) as [v|]; [|done]. simpl.
  by destruct (last_update k (updates dl)).
Qed.

(** X6: [apply] never reads the [from] field: updates that agree on
    [key] and [to] have the same effect, whatever value is stored. *)
Theorem apply_ignores_from base al dels (us us' : list (update_entry V)) :
  Forall2 (λ u u', u_key u = u_key u' ∧ u_to u = u_to u') us us' →
  apply base (Delta al dels us) = apply base (Delta al dels us').
Proof.
  intros Hall. unfold apply; simpl. f_equal.
  generalize (fold_left apply_deletion dels base).
  induction Hall as [|u u' us us' [Hk Ht] _ IH]; intros d; [done|].
  simpl. rewrite <- IH. f_equal. unfold apply_update. by rewrite Hk, Ht.
Qed.
End delta_more.

Section roundtrip_order.
Context {V : Type} (py_eq : V → V → bool).
Import ConfigDeltaProcessor.
Local Arguments generate : simpl never.

Implicit Types (d base patched : dict string V) (k key : string).








End roundtrip_order.

(** * More on the class table and the renderer *)
Section parse_more.
Implicit Types (classes : class_table) (c : option string)
  (a agg : aggregation_elem) (root : document).





End parse_more.

Section render_more.
Implicit Types (classes : class_table) (c k : option string).

Lemma find_root_class_first (l1 l2 : class_table) c info :
  Forall (λ item, isRoot item.2 = false) l1 → isRoot info = true →
  find_root_class (l1 ++ (c, info) :: l2) = c.
Proof.
  intros Hl1 Hr. unfold find_root_class.
  induction Hl1 as [|[c' info'] l1 Hc' _ IH]; simpl in *.
  - rewrite Hr. done.
  - rewrite Hc'. simpl. exact IH.
Qed.

(** X8: the first class flagged as root, in table order, is the one
    built and serialised; later roots are ignored, also when the first one
    has no usable name, in which case the no-root error is raised. *)
Theorem render_first_root fuel self (l1 l2 : class_table) c info :
  classes self = l1 ++ (c, info) :: l2 →
  Forall (λ item, isRoot item.2 = false) l1 → isRoot info = true →
  generate_config_xml fuel self
  = if falsy c then Err NoRootFound
    else root_element ← build_xml_structure fuel (classes self) c;
         tostring root_element.
Proof.
  intros Hcls Hl1 Hr. unfold generate_config_xml.
  by rewrite Hcls, (find_root_class_first l1 l2 c info Hl1 Hr).
Qed.

Lemma build_ok_reach_fuel classes c c' :
  reachable classes c c' →
  ∀ fuel t, build_xml_structure fuel classes c = Ok t →
            ∃ fuel' t', fuel' ≤ fuel
                        ∧ build_xml_structure fuel' classes c' = Ok t'.
Proof.
  induction 1 as [c|c info child c' Hget Hin Hreach IH]; intros fuel t Hb.
  - exists fuel, t. by split.
  - destruct fuel as [|fuel]; [done|].
    apply build_ok in Hb as (info' & subtrees & Hget' & Hall & _).
    simplify_eq.
    apply list_elem_of_lookup in Hin as [i Hi].
    destruct (Forall2_lookup_l _ _ _ _ _ Hall Hi) as (st & _ & Hst).
    destruct (IH _ _ Hst) as (fuel' & t' & Hle & Hb').
    exists fuel', t'. split; [lia|done].
Qed.

Lemma build_cycle_fails classes c :
  on_cycle classes c → ∀ fuel t, build_xml_structure fuel classes c ≠ Ok t.
Proof.
  intros (info & child & Hget & Hin & Hreach) fuel.
  induction fuel as [fuel IH] using lt_wf_ind. intros t Hb.
  destruct fuel as [|fuel]; [done|].
  apply build_ok in Hb as (info' & subtrees & Hget' & Hall & _).
  simplify_eq.
  apply list_elem_of_lookup in Hin as [i Hi].
  destruct (Forall2_lookup_l _ _ _ _ _ Hall Hi) as (st & _ & Hst).
  destruct (build_ok_reach_fuel _ _ _ Hreach _ _ Hst) as (fuel' & t' & Hle & Hb').
  by eapply (IH fuel'); [lia|].
Qed.

Lemma build_KeyError classes fuel c k :
  build_xml_structure fuel classes c = Err (KeyError k) →
  reachable classes c k ∧ dict_get k classes = None.
Proof.
  revert c. induction fuel as [|fuel IH]; intros c; [done|].
  rewrite build_S. destruct (dict_get c classes) as [info|] eqn:Hget.
  - intros [?|(child & Hin & Hb)]%fold_child_step_err_inv; [done|].
    apply IH in Hb as [Hreach Hk]. split; [|done].
    by eapply reach_step.
  - intros [= <-]. split; [constructor|done].
Qed.

Lemma reachable_last classes c k :
  reachable classes c k →
  c = k ∨ ∃ c' info child,
            reachable classes c c' ∧ dict_get c' classes = Some info
            ∧ child ∈ children info ∧ child_name child = k.
Proof.
  induction 1 as [c|c info child k Hget Hin Hreach IH]; [by left|].
  right. destruct IH as [<-|(c' & info' & child' & Hr & Hg & Hi & Hk)].
  - exists c, info, child. split_and!; try done. constructor.
  - exists c', info', child'. split_and!; try done.
    by eapply reach_step.
Qed.

Lemma find_root_class_declared classes :
  falsy (find_root_class classes) = false →
  is_Some (dict_get (find_root_class classes) classes).
Proof.
  unfold find_root_class.
  destruct (find _ classes) as [[c info]|] eqn:E; [|done].
  intros _. apply find_some in E as [Hin%list_elem_of_In _].
  apply dict_get_is_Some, list_elem_of_fmap. by exists (c, info).
Qed.

(** X9: on a model with a containment cycle reachable from the root,
    [generate_config_xml] returns no tree whatever recursion depth is
    allowed; when moreover the root has a usable name and every reference
    met from it names a declared class, the error is the exhaustion of the
    recursion depth. *)
Theorem render_cycle_fails self c :
  reachable (classes self) (find_root_class (classes self)) c →
  on_cycle (classes self) c →
  (∀ fuel t, generate_config_xml fuel self ≠ Ok t)
  ∧ (falsy (find_root_class (classes self)) = false →
     resolved_from (classes self) (find_root_class (classes self)) →
     ∀ fuel, generate_config_xml fuel self = Err RecursionError).
Proof.
  intros Hreach Hcyc.
  assert (∀ fuel t, build_xml_structure fuel (classes self)
                      (find_root_class (classes self)) ≠ Ok t) as Hno.
  { intros fuel t Hb.
    destruct (build_ok_reach_fuel _ _ _ Hreach _ _ Hb) as (fuel' & t' & _ & Hb').
    by eapply build_cycle_fails. }
  split.
  { intros fuel t (_ & Hb & _)%generate_config_xml_ok. by eapply Hno. }
  intros Hroot Hres fuel.
  destruct (build_xml_structure fuel (classes self)
              (find_root_class (classes self))) as [t|e] eqn:Hb.
  { by destruct (Hno fuel t). }
  rewrite (generate_config_xml_build_err _ _ _ Hroot Hb).
  f_equal. destruct (build_err_kind _ _ _ _ Hb) as [->|(k & -> & Hk)]; [done|].
  exfalso. apply build_KeyError in Hb as [Hrk _].
  apply reachable_last in Hrk as [<-|(c' & info & child & Hr & Hg & Hi & <-)].
  - apply find_root_class_declared in Hroot as [? ?]. congruence.
  - destruct (Hres _ _ _ Hr Hg Hi) as [? ?]. congruence.
Qed.

Lemma generate_config_xml_KeyError fuel self k :
  generate_config_xml fuel self = Err (KeyError k) →
  falsy (find_root_class (classes self)) = false
  ∧ build_xml_structure fuel (classes self) (find_root_class (classes self))
    = Err (KeyError k).
Proof.
  unfold generate_config_xml, tostring. destruct (falsy _); [done|].
  destruct (build_xml_structure _ _ _) as [t|e]; simpl.
  - by destruct (serializable t).
  - by intros [= ->].
Qed.

(** X10: a [KeyError] of [generate_config_xml] always names the source
    of an aggregation whose target is a declared class reachable from the
    root, the source itself being no declared class; the root lookup
    never raises it. *)
Theorem render_key_error_origin fuel xml_content k :
  let self := XMLProcessor_init xml_content in
  generate_config_xml fuel self = Err (KeyError k) →
  (k ∉ cls_name <$> findall_Class xml_content)
  ∧ ∃ a, a ∈ findall_Aggregation xml_content ∧ agg_source a = k
         ∧ (agg_target a ∈ cls_name <$> findall_Class xml_content)
         ∧ reachable (classes self) (find_root_class (classes self))
             (agg_target a).
Proof.
  intros self [Hroot Hb]%generate_config_xml_KeyError.
  apply build_KeyError in Hb as [Hrk Hk]. split.
  - intros Hin%parse_known. destruct Hin as [? ?]. unfold self in Hk.
    simpl in Hk. congruence.
  - apply reachable_last in Hrk as [<-|(c' & info & child & Hr & Hg & Hi & <-)].
    + apply find_root_class_declared in Hroot as [? ?]. congruence.
    + pose proof Hg as Hch. apply parse_children in Hch. rewrite Hch in Hi.
      apply list_elem_of_fmap in Hi as (a & -> & Ha).
      apply list_elem_of_filter in Ha as [Ht Ha].
      exists a. split_and!; try done.
      * apply parse_known. rewrite Ht. eauto.
      * by rewrite Ht.
Qed.
End render_more.

(** * More on the metadata *)
Section meta_more.
Implicit Types (c : option string) (a agg : aggregation_elem)
  (cm : dict (option string) multiplicity) (s m : string).

Lemma contains_split_pair s :
  ((str_contains_dotdot s = false → str_split_dotdot s = [s])
   ∧ (str_contains_dotdot s = true → 2 ≤ length (str_split_dotdot s)))
  ∧ ∀ ch,
      (str_contains_dotdot (String ch s) = false →
       str_split_dotdot (String ch s) = [String ch s])
      ∧ (str_contains_dotdot (String ch s) = true →
         2 ≤ length (str_split_dotdot (String ch s))).
Proof.
  induction s as [|c0 s [IH1 IH2]].
  - split; [by split|]. intros ch. by split.
  - split; [apply IH2|]. intros ch.
    destruct (is_dot ch && is_dot c0) eqn:E.
    + apply andb_true_iff in E as [->%is_dot_eq ->%is_dot_eq].
      rewrite split_cons_dots. split; [done|]. intros _.
      destruct (str_split_dotdot s) eqn:Es; [by apply split_nonempty in Es|].
      simpl. lia.
    + rewrite split_keep by (by intros ?? [= <- <-]).
      rewrite contains_cons, E. cbn [orb].
      destruct (IH2 c0) as [Hf Ht]. split.
      * intros Hc. by rewrite (Hf Hc).
      * intros Hc. specialize (Ht Hc).
        destruct (str_split_dotdot (String c0 s)) as [|p ps]; simpl in *; lia.
Qed.

Lemma contains_false_split s :
  str_contains_dotdot s = false → str_split_dotdot s = [s].
Proof. apply contains_split_pair. Qed.

Lemma contains_true_split s :
  str_contains_dotdot s = true → 2 ≤ length (str_split_dotdot s).
Proof. apply contains_split_pair. Qed.

Lemma multiplicity_of_unpackable a :
  is_Some (multiplicity_of a) ↔ unpackable a.
Proof.
  unfold multiplicity_of, unpackable.
  destruct (agg_sourceMultiplicity a) as [m|].
  - destruct (str_contains_dotdot m) eqn:Ec.
    + pose proof (contains_true_split m Ec) as Hlen.
      destruct (str_split_dotdot m) as [|mn [|mx [|? ?]]] eqn:Es;
        simpl in Hlen; try lia.
      * split; [|eauto]. intros _. exists m. split; [done|].
        rewrite Es. simpl. lia.
      * split; [by intros [? ?]|]. intros (m0 & [= <-] & Hl).
        rewrite Es in Hl. simpl in Hl. lia.
    + split; [|eauto]. intros _. exists m. split; [done|].
      rewrite (contains_false_split m Ec). simpl. lia.
  - split; [by intros [? ?]|]. by intros (? & ? & _).
Qed.

Lemma build_class_multiplicity_fold aggs :
  build_class_multiplicity aggs
  = fold_left multiplicity_step aggs
      (@Ok (dict (option string) multiplicity) []).
Proof. done. Qed.


Lemma fold_multiplicity_app aggs1 aggs2 acc :
  fold_left multiplicity_step (aggs1 ++ aggs2) acc
  = fold_left multiplicity_step aggs2 (fold_left multiplicity_step aggs1 acc).
Proof. apply fold_left_app. Qed.

(** X12: the error of [generate_meta_json] is decided by the first
    aggregation that cannot be unpacked: [TypeError] when it has no
    multiplicity, the unpacking [ValueError] when its multiplicity has two
    or more separators. *)
Theorem meta_error_first_bad self (aggs1 aggs2 : list aggregation_elem) a :
  findall_Aggregation (xml_content self) = aggs1 ++ a :: aggs2 →
  Forall unpackable aggs1 →
  (agg_sourceMultiplicity a = None → generate_meta_json self = Err TypeError)
  ∧ (∀ m, agg_sourceMultiplicity a = Some m →
          3 ≤ length (str_split_dotdot m) →
          generate_meta_json self = Err UnpackError).
Proof.
  intros Haggs Hall.
  destruct (fold_multiplicity_total aggs1 []) as [cm Hcm].
  { eapply Forall_impl; [exact Hall|]. intros a'.
    apply multiplicity_of_unpackable. }
  assert (∀ e, add_multiplicity cm a = Err e → generate_meta_json self = Err e)
    as Hstep.
  { intros e He. apply generate_meta_json_err.
    rewrite Haggs, build_class_multiplicity_fold, fold_multiplicity_app, Hcm.
    cbn [fold_left]. unfold multiplicity_step at 2. simpl. rewrite He.
    apply fold_multiplicity_err. }
  split.
  - intros Hm. apply Hstep. unfold add_multiplicity. by rewrite Hm.
  - intros m Hm Hlen. apply Hstep. unfold add_multiplicity. rewrite Hm.
    destruct (str_contains_dotdot m) eqn:Ec.
    + destruct (str_split_dotdot m) as [|mn [|mx [|? ?]]]; simpl in *;
        try lia; done.
    + rewrite (contains_false_split m Ec) in Hlen. simpl in Hlen. lia.
Qed.

(** X13: the entries of [generate_meta_json], one per class in table
    order whether contained or not, carry the documentation and root flag
    of the class and, as parameters, its attributes followed by one
    parameter of type ["class"] per aggregation that targets it, in
    document order. *)
Theorem meta_entries_table xml_content entries :
  let self := XMLProcessor_init xml_content in
  generate_meta_json self = Ok entries →
  Forall2 (λ item e,
      entry_class e = item.1
      ∧ entry_documentation e = documentation item.2
      ∧ entry_isRoot e = isRoot item.2
      ∧ entry_parameters e
        = ((λ attr, Param (attr_name attr) (attr_type attr))
             <$> attributes item.2)
          ++ ((λ a, Param (agg_source a) (Some "class"))
                <$> filter (λ a, agg_target a = item.1)
                      (findall_Aggregation xml_content)))
    (classes self) entries.
Proof.
  intros self (cm & _ & ->)%generate_meta_json_ok.
  apply Forall2_fmap_r, Forall_Forall2_diag, Forall_forall.
  intros [c info] Hin. unfold compose. cbn [fst snd].
  destruct (make_entry_fields cm c info) as (-> & -> & -> & _ & _ & ->).
  split_and!; try done. f_equal.
  assert (dict_get c (classes self) = Some info) as Hget.
  { apply dict_elem_of_get; [apply parse_wf|done]. }
  rewrite (parse_children _ _ _ Hget), <- list_fmap_compose. done.
Qed.
End meta_more.

(** * What the renderer does not read *)
Section render_shape.
Implicit Types (classes : class_table) (c : option string).

Lemma same_shape_get classes classes' c :
  same_shape classes classes' →
  match dict_get c classes, dict_get c classes' with
  | Some info, Some info' =>
      isRoot info = isRoot info' ∧ attributes info = attributes info'
      ∧ child_name <$> children info = child_name <$> children info'
  | None, None => True
  | _, _ => False
  end.
Proof.
  induction 1 as [|[k info] [k' info'] classes classes' (Hk & Hr & Ha & Hc) _ IH];
    simpl in *; [done|]. subst k'. by case_decide.
Qed.

Lemma same_shape_set classes classes' c (info info' : class_info) :
  same_shape classes classes' →
  isRoot info = isRoot info' → attributes info = attributes info' →
  child_name <$> children info = child_name <$> children info' →
  same_shape (dict_set c info classes) (dict_set c info' classes').
Proof.
  intros Hs Hr Ha Hc.
  induction Hs as [|[k i] [k' i'] classes classes' (Hk & Hrest) Hs IH];
    simpl in *.
  - by repeat constructor.
  - subst k'. case_decide; by constructor.
Qed.

Lemma same_shape_fold_add_class (elems elems' : list class_elem)
    classes classes' :
  Forall2 (λ e e', cls_name e = cls_name e' ∧ cls_isRoot e = cls_isRoot e'
                   ∧ cls_attributes e = cls_attributes e') elems elems' →
  same_shape classes classes' →
  same_shape (fold_left add_class elems classes)
    (fold_left add_class elems' classes').
Proof.
  intros Hall. revert classes classes'.
  induction Hall as [|e e' elems elems' (Hn & Hr & Ha) _ IH];
    intros classes classes' Hs; [done|].
  cbn [fold_left]. apply IH. unfold add_class. rewrite Hn.
  apply same_shape_set; simpl; [done| | |done]; by rewrite ?Hr, ?Ha.
Qed.

Lemma same_shape_fold_add_aggregation (aggs aggs' : list aggregation_elem)
    classes classes' :
  Forall2 (λ a a', agg_source a = agg_source a'
                   ∧ agg_target a = agg_target a') aggs aggs' →
  same_shape classes classes' →
  same_shape (fold_left add_aggregation aggs classes)
    (fold_left add_aggregation aggs' classes').
Proof.
  intros Hall. revert classes classes'.
  induction Hall as [|a a' aggs aggs' (Hsrc & Htgt) _ IH];
    intros classes classes' Hs; [done|].
  cbn [fold_left]. apply IH. unfold add_aggregation. rewrite <- Htgt.
  pose proof (same_shape_get _ _ (agg_target a) Hs) as Hget.
  destruct (dict_get (agg_target a) classes) as [info|],
           (dict_get (agg_target a) classes') as [info'|]; try done.
  destruct Hget as (Hr & Ha & Hc).
  apply same_shape_set; simpl; [done..|].
  by rewrite !fmap_app, Hc, Hsrc.
Qed.

Lemma same_shape_parse xml xml' :
  same_for_render xml xml' →
  same_shape (_parse_xml_classes xml) (_parse_xml_classes xml').
Proof.
  intros [Hcls Haggs]. unfold _parse_xml_classes.
  apply same_shape_fold_add_aggregation; [done|].
  apply same_shape_fold_add_class; [done|]. constructor.
Qed.

Lemma same_shape_find_root classes classes' :
  same_shape classes classes' →
  find_root_class classes = find_root_class classes'.
Proof.
  unfold find_root_class.
  induction 1 as [|[k i] [k' i'] classes classes' (Hk & Hr & _) _ IH];
    simpl in *; [done|].
  rewrite Hr. by destruct (bool_decide (isRoot i' = true)).
Qed.

Lemma fold_child_step_names fuel classes (l : list child_ref) acc :
  fold_left (child_step fuel classes) l acc
  = fold_left (λ acc name,
        element ← acc;
        child_element ← build_xml_structure fuel classes name;
        Ok (append element child_element))
      (child_name <$> l) acc.
Proof.
  revert acc. induction l as [|ch l IH]; intros acc; [done|].
  rewrite fmap_cons. cbn [fold_left]. by rewrite IH.
Qed.

Lemma fold_left_ext_all {A B} (f g : A → B → A) (l : list B) (acc : A) :
  (∀ a b, f a b = g a b) → fold_left f l acc = fold_left g l acc.
Proof.
  intros Hfg. revert acc. induction l as [|b l IH]; intros acc; [done|].
  simpl. by rewrite Hfg, IH.
Qed.

Lemma same_shape_build classes classes' :
  same_shape classes classes' →
  ∀ fuel c, build_xml_structure fuel classes c
            = build_xml_structure fuel classes' c.
Proof.
  intros Hs. induction fuel as [|fuel IH]; intros c; [done|].
  rewrite !build_S.
  pose proof (same_shape_get _ _ c Hs) as Hget.
  destruct (dict_get c classes) as [info|],
           (dict_get c classes') as [info'|]; try done.
  destruct Hget as (_ & -> & Hc).
  rewrite !fold_child_step_names, Hc.
  apply fold_left_ext_all. intros acc name. by rewrite IH.
Qed.

(** X14: the rendered tree depends on the names, root flags and
    attributes of the classes and on the sources and targets of the
    aggregations only: documents that differ in multiplicities, in
    documentation or in elements of other kinds render alike, errors
    included. *)
Theorem render_ignores_multiplicity xml xml' fuel :
  same_for_render xml xml' →
  generate_config_xml fuel (XMLProcessor_init xml)
  = generate_config_xml fuel (XMLProcessor_init xml').
Proof.
  intros Hs%same_shape_parse. unfold generate_config_xml. simpl.
  rewrite (same_shape_find_root _ _ Hs).
  destruct (falsy _); [done|]. by rewrite (same_shape_build _ _ Hs).
Qed.
End render_shape.

(** * The whole run *)
Section run_facts.
Context {V : Type} (py_eq : V → V → bool).
Import ConfigDeltaProcessor.
Local Arguments generate : simpl never.

Lemma roundtrip_dict_eq (base patched : dict string V) :
  dict_wf base → dict_wf patched → (∀ v, py_eq v v = true) →
  dict_eq py_eq (apply base (generate py_eq base patched)) patched = true.
Proof.
  intros Hb Hp Hrefl. apply dict_eq_same_items; [by apply apply_wf|done|].
  intros k. rewrite get_roundtrip by done.
  destruct (dict_get k patched) as [v'|]; [|done].
  destruct (dict_get k base) as [v|]; [|done].
  by destruct (py_eq v v') eqn:E.
Qed.

(** X15: [run] writes its four files in order and stops at the first
    step that raises.  It ends without error exactly when both the
    serialised tree and the metadata are produced; otherwise [delta.json]
    and [res_patched_config.json] keep what they held, although neither
    depends on the class model, and a failing render (a failing
    serialisation included) leaves [config.xml] empty and [meta.json] as it
    was.  After a run without error the result file holds the delta applied
    to the configuration, which, where every value is [==] to itself, is a
    dictionary equal to the patched configuration. *)
Theorem run_outputs fuel xml_content (config_json patched_config_json : dict string V)
    (out : gmap string (file_content V)) :
  dict_wf config_json → dict_wf patched_config_json →
  let self := XMLProcessor_init xml_content in
  let out' := (run py_eq fuel xml_content config_json patched_config_json out).1 in
  let err := (run py_eq fuel xml_content config_json patched_config_json out).2 in
  let delta := generate py_eq config_json patched_config_json in
  (err = None ↔ (∃ t, generate_config_xml fuel self = Ok t)
                ∧ (∃ entries, generate_meta_json self = Ok entries))
  ∧ (err = None →
     out' !! "delta.json" = Some (DeltaJson delta)
     ∧ out' !! "res_patched_config.json"
       = Some (ResultJson (apply config_json delta))
     ∧ ((∀ v, py_eq v v = true) →
        dict_eq py_eq (apply config_json delta) patched_config_json = true))
  ∧ (err ≠ None →
     out' !! "delta.json" = out !! "delta.json"
     ∧ out' !! "res_patched_config.json" = out !! "res_patched_config.json")
  ∧ (∀ e, generate_config_xml fuel self = Err e →
          err = Some e ∧ out' !! "config.xml" = Some Truncated
          ∧ out' !! "meta.json" = out !! "meta.json")
  ∧ (∀ t e, generate_config_xml fuel self = Ok t →
            generate_meta_json self = Err e →
            err = Some e ∧ out' !! "config.xml" = Some (ConfigXml t)
            ∧ out' !! "meta.json" = Some Truncated).
Proof.
  intros Hb Hp self out' err delta. subst out' err delta. unfold run. fold self.
  destruct (generate_config_xml fuel self) as [t|e] eqn:Hr;
    [destruct (generate_meta_json self) as [entries|e] eqn:Hm|];
    cbn [fst snd]; split_and!.
  - split; [eauto|done].
  - intros _. split_and!.
    + rewrite lookup_insert_ne by done. by rewrite lookup_insert_eq.
    + by rewrite lookup_insert_eq.
    + intros Hrefl. by apply roundtrip_dict_eq.
  - done.
  - done.
  - done.
  - split; [done|]. by intros [_ [? ?]].
  - done.
  - intros _. by rewrite !lookup_insert_ne.
  - done.
  - intros t' e' [= <-] [= <-]. split_and!; [done| |].
    + rewrite lookup_insert_ne by done. by rewrite lookup_insert_eq.
    + by rewrite lookup_insert_eq.
  - split; [done|]. by intros [[? ?] _].
  - done.
  - intros _. by rewrite !lookup_insert_ne.
  - intros e' [= <-]. split_and!; [done| |].
    + by rewrite lookup_insert_eq.
    + by rewrite lookup_insert_ne.
  - done.
Qed.
End run_facts.

(** * The further theorems at concrete inputs *)

Lemma json_eq_sym (x y : json) : json_eq x y = json_eq y x.
Proof.
  destruct x, y; simpl; try done;
    apply bool_decide_ext; split; congruence.
Qed.

Lemma generate_empty_iff_equal_witness :
  dict_wf example_base
  ∧ (ConfigDeltaProcessor.generate json_eq example_base example_base
     = Delta [] [] []
     ↔ same_items json_eq example_base example_base)
  ∧ (∀ v, json_eq v v = true)
  ∧ (ConfigDeltaProcessor.generate json_eq example_base example_base
     = Delta [] [] []
     ↔ ConfigDeltaProcessor.dict_eq json_eq example_base example_base = true).
Proof.
  split; [exact example_base_wf|].
  split.
  { exact (proj1 (generate_empty_iff_equal json_eq example_base example_base
                    example_base_wf example_base_wf)). }
  split; [exact json_eq_refl|].
  exact (proj2 (generate_empty_iff_equal json_eq example_base example_base
                  example_base_wf example_base_wf) json_eq_refl).
Defined.

Lemma generate_keys_disjoint_witness :
  dict_wf example_base ∧ dict_wf example_patched
  ∧ NoDup ((a_key <$> additions
              (ConfigDeltaProcessor.generate json_eq example_base example_patched))
           ++ deletions
                (ConfigDeltaProcessor.generate json_eq example_base example_patched)
           ++ (u_key <$> updates
                 (ConfigDeltaProcessor.generate json_eq example_base
                    example_patched))).
Proof.
  split; [exact example_base_wf|].
  split; [exact example_patched_wf|].
  exact (generate_keys_disjoint json_eq example_base example_patched
           example_base_wf example_patched_wf).
Defined.

Lemma generate_reverse_witness :
  dict_wf example_base ∧ dict_wf example_patched
  ∧ (∀ x y, json_eq x y = json_eq y x)
  ∧ deletions (ConfigDeltaProcessor.generate json_eq example_patched example_base)
    = a_key <$> additions
        (ConfigDeltaProcessor.generate json_eq example_base example_patched).
Proof.
  split; [exact example_base_wf|].
  split; [exact example_patched_wf|].
  split; [exact json_eq_sym|].
  exact (proj1 (generate_reverse json_eq example_base example_patched
                  example_base_wf example_patched_wf json_eq_sym)).
Defined.


Lemma example_updates_agree :
  Forall2 (λ u u' : update_entry json,
             u_key u = u_key u' ∧ u_to u = u_to u')
    [Update "b" (JInt 2) (JInt 3)] [Update "b" (JStr "stale") (JInt 3)].
Proof. repeat constructor. Qed.

Lemma apply_ignores_from_witness :
  Forall2 (λ u u' : update_entry json,
             u_key u = u_key u' ∧ u_to u = u_to u')
    [Update "b" (JInt 2) (JInt 3)] [Update "b" (JStr "stale") (JInt 3)]
  ∧ ConfigDeltaProcessor.apply example_base
      (Delta [] [] [Update "b" (JInt 2) (JInt 3)])
    = ConfigDeltaProcessor.apply example_base
        (Delta [] [] [Update "b" (JStr "stale") (JInt 3)]).
Proof.
  split; [exact example_updates_agree|].
  exact (apply_ignores_from example_base [] [] _ _ example_updates_agree).
Defined.

Lemma two_roots_table :
  classes (XMLProcessor_init two_roots_doc)
  = [] ++ (Some "A", ClassInfo true "" [] [])
       :: [(Some "B", ClassInfo true "" [] [])].
Proof. by vm_compute. Qed.

Lemma render_first_root_witness :
  isRoot (ClassInfo true "" [] []) = true
  ∧ generate_config_xml 1 (XMLProcessor_init two_roots_doc)
    = if falsy (Some "A") then Err NoRootFound
      else root_element ← build_xml_structure 1
                            (classes (XMLProcessor_init two_roots_doc))
                            (Some "A");
           tostring root_element.
Proof.
  split; [reflexivity|].
  exact (render_first_root 1 (XMLProcessor_init two_roots_doc) []
           [(Some "B", ClassInfo true "" [] [])] (Some "A")
           (ClassInfo true "" [] []) two_roots_table (Forall_nil_2 _)
           eq_refl).
Defined.

Lemma cyclic_root_reachable :
  reachable (classes (XMLProcessor_init cyclic_doc))
    (find_root_class (classes (XMLProcessor_init cyclic_doc))) (Some "R").
Proof. exact (reach_refl _ (Some "R")). Qed.

Lemma cyclic_on_cycle :
  on_cycle (classes (XMLProcessor_init cyclic_doc)) (Some "R").
Proof.
  exists (ClassInfo true "" [] [ChildRef (Some "C") (Some "1")]),
         (ChildRef (Some "C") (Some "1")).
  split_and!; [by vm_compute|left|].
  apply (reach_step _ (Some "C")
           (ClassInfo false "" [] [ChildRef (Some "R") (Some "1")])
           (ChildRef (Some "R") (Some "1")));
    [by vm_compute|left|constructor].
Qed.

Lemma render_cycle_fails_witness :
  on_cycle (classes (XMLProcessor_init cyclic_doc)) (Some "R")
  ∧ ∀ fuel t, generate_config_xml fuel (XMLProcessor_init cyclic_doc) ≠ Ok t.
Proof.
  split; [exact cyclic_on_cycle|].
  exact (proj1 (render_cycle_fails (XMLProcessor_init cyclic_doc) (Some "R")
                  cyclic_root_reachable cyclic_on_cycle)).
Defined.

Lemma dangling_key_error :
  generate_config_xml 2 (XMLProcessor_init dangling_doc)
  = Err (KeyError (Some "X")).
Proof. by vm_compute. Qed.

Lemma render_key_error_origin_witness :
  generate_config_xml 2 (XMLProcessor_init dangling_doc)
  = Err (KeyError (Some "X"))
  ∧ (Some "X" ∉ cls_name <$> findall_Class dangling_doc).
Proof.
  split; [exact dangling_key_error|].
  exact (proj1 (render_key_error_origin 2 dangling_doc (Some "X")
                  dangling_key_error)).
Defined.

Lemma missing_mult_split :
  findall_Aggregation (xml_content (XMLProcessor_init missing_mult_doc))
  = [AggregationElem (Some "C") (Some "R") (Some "0..5")]
    ++ AggregationElem (Some "D") (Some "R") None :: [].
Proof. done. Qed.

Lemma missing_mult_prefix :
  Forall unpackable [AggregationElem (Some "C") (Some "R") (Some "0..5")].
Proof.
  constructor; [|constructor]. exists "0..5". split; [done|]. vm_compute. lia.
Qed.

Lemma meta_error_first_bad_witness :
  Forall unpackable [AggregationElem (Some "C") (Some "R") (Some "0..5")]
  ∧ generate_meta_json (XMLProcessor_init missing_mult_doc) = Err TypeError.
Proof.
  split; [exact missing_mult_prefix|].
  exact (proj1 (meta_error_first_bad (XMLProcessor_init missing_mult_doc) _ _ _
                  missing_mult_split missing_mult_prefix) eq_refl).
Defined.

Lemma meta_entries_table_witness :
  generate_meta_json (XMLProcessor_init scenario_doc) = Ok scenario_entries
  ∧ Forall2 (λ item e, entry_class e = item.1
                       ∧ entry_documentation e = documentation item.2)
      (classes (XMLProcessor_init scenario_doc)) scenario_entries.
Proof.
  split; [exact scenario_meta_ok|].
  eapply Forall2_impl.
  - exact (meta_entries_table scenario_doc scenario_entries scenario_meta_ok).
  - intros item e H. split; [exact (proj1 H)|exact (proj1 (proj2 H))].
Defined.

Lemma redocumented_same : same_for_render scenario_doc redocumented_doc.
Proof. split; repeat constructor. Qed.

Lemma render_ignores_multiplicity_witness :
  same_for_render scenario_doc redocumented_doc
  ∧ generate_config_xml 2 (XMLProcessor_init scenario_doc)
    = generate_config_xml 2 (XMLProcessor_init redocumented_doc).
Proof.
  split; [exact redocumented_same|].
  exact (render_ignores_multiplicity scenario_doc redocumented_doc 2
           redocumented_same).
Defined.

Lemma scenario_run_ends :
  (run json_eq 2 scenario_doc example_base example_patched ∅).2 = None.
Proof. by vm_compute. Qed.

Lemma run_outputs_witness :
  dict_wf example_base ∧ dict_wf example_patched
  ∧ (run json_eq 2 scenario_doc example_base example_patched ∅).2 = None
  ∧ (∀ v, json_eq v v = true)
  ∧ ConfigDeltaProcessor.dict_eq json_eq
      (ConfigDeltaProcessor.apply example_base
         (ConfigDeltaProcessor.generate json_eq example_base example_patched))
      example_patched = true.
Proof.
  split; [exact example_base_wf|].
  split; [exact example_patched_wf|].
  split; [exact scenario_run_ends|].
  split; [exact json_eq_refl|].
  exact (proj2 (proj2 (proj1 (proj2 (run_outputs json_eq 2 scenario_doc
                                       example_base example_patched ∅
                                       example_base_wf example_patched_wf))
                         scenario_run_ends))
           json_eq_refl).
Defined.

Example run_example_ok :
  (run json_eq 2 scenario_doc example_base example_patched ∅).2 = None
  ∧ (run json_eq 2 scenario_doc example_base example_patched ∅).1
      !! "res_patched_config.json" = Some (ResultJson example_patched)
  ∧ (run json_eq 2 scenario_doc example_base example_patched ∅).1
      !! "config.xml" = Some (ConfigXml scenario_tree).
Proof. by vm_compute. Qed.

Example run_example_no_root :
  (run json_eq 2 rootless_doc example_base example_patched ∅).2
  = Some NoRootFound
  ∧ (run json_eq 2 rootless_doc example_base example_patched ∅).1
      !! "config.xml" = Some Truncated
  ∧ (run json_eq 2 rootless_doc example_base example_patched ∅).1
      !! "delta.json" = None.
Proof. by vm_compute. Qed.

Example run_example_brace :
  generate_config_xml 2 (XMLProcessor_init brace_name_doc)
  = Err SerializationError
  ∧ build_xml_structure 2 (classes (XMLProcessor_init brace_name_doc))
      (Some "{foo")
    = Ok (Element (Some "{foo") None [])
  ∧ (run json_eq 2 brace_name_doc example_base example_patched ∅).2
    = Some SerializationError
  ∧ (run json_eq 2 brace_name_doc example_base example_patched ∅).1
      !! "config.xml" = Some Truncated
  ∧ (run json_eq 2 brace_name_doc example_base example_patched ∅).1
      !! "meta.json" = None.
Proof. by vm_compute. Qed.

Example three_parts_meta :
  generate_meta_json (XMLProcessor_init three_parts_doc) = Err UnpackError
  ∧ generate_config_xml 1 (XMLProcessor_init two_roots_doc)
    = Ok (Element (Some "A") None [])
  ∧ generate_config_xml 50 (XMLProcessor_init cyclic_doc) = Err RecursionError.
Proof. by vm_compute. Qed.

(** * Empty sides, and the two outputs side by side *)
Section empty_sides.
Context {V : Type} (py_eq : V → V → bool).
Import ConfigDeltaProcessor.
Local Arguments generate : simpl never.

Lemma fold_left_keep {A B} (g : A → B → A) (l : list B) (acc : A) :
  (∀ acc x, g acc x = acc) → fold_left g l acc = acc.
Proof.
  intros Hg. revert acc. induction l as [|x l IH]; intros acc; [done|].
  simpl. by rewrite Hg, IH.
Qed.

Lemma fold_left_append_all {A B} (g : list B → A → list B) (f : A → B)
    (l : list A) (acc : list B) :
  (∀ acc x, g acc x = acc ++ [f x]) → fold_left g l acc = acc ++ (f <$> l).
Proof.
  intros Hg. revert acc. induction l as [|x l IH]; intros acc.
  - simpl. by rewrite app_nil_r.
  - cbn [fold_left]. rewrite Hg, IH, fmap_cons. by rewrite <- app_assoc.
Qed.

(** X16: against an empty dictionary everything is an addition, or
    everything a deletion: from an empty base the delta adds every item of
    [patched] in order, and towards an empty [patched] it deletes every key
    of [base] in order; updates are empty in both cases. *)
Theorem generate_empty_side (d : dict string V) :
  generate py_eq [] d = Delta ((λ kv, Addition kv.1 kv.2) <$> d) [] []
  ∧ generate py_eq d [] = Delta [] (dict_keys d) [].
Proof.
  split; unfold generate; f_equal.
  - rewrite (fold_left_append_all _ (λ kv, Addition kv.1 kv.2));
      [done|by intros acc [k v]].
  - rewrite (fold_left_append_all _ id); [|done].
    simpl. apply list_fmap_id.
  - by apply fold_left_keep.
Qed.
End empty_sides.

Section render_meta.
Implicit Types (c : option string).


End render_meta.



Lemma apply_idempotent_witness :
  dict_get "b"
    (ConfigDeltaProcessor.apply
       (ConfigDeltaProcessor.apply example_base
          (ConfigDeltaProcessor.generate json_eq example_base example_patched))
       (ConfigDeltaProcessor.generate json_eq example_base example_patched))
  = dict_get "b"
      (ConfigDeltaProcessor.apply example_base
         (ConfigDeltaProcessor.generate json_eq example_base example_patched)).
Proof.
  exact (apply_idempotent example_base
           (ConfigDeltaProcessor.generate json_eq example_base example_patched)
           "b").
Defined.




Lemma generate_empty_side_witness :
  ConfigDeltaProcessor.generate json_eq [] example_patched
  = Delta ((λ kv, Addition kv.1 kv.2) <$> example_patched) [] [].
Proof. exact (proj1 (generate_empty_side json_eq example_patched)). Defined.
